(** * Micro-DCA vault: a shallow embedding of the contracts and their properties

    The development follows the Solidity sources:
    - [MockERC20] and [MockRouter] are the token and the router of the test
      suite (the only token and router implementations of the repository);
    - [MicroDcaVault] is the vault (configuration and cycle engine);
    - [ShareLedger] is the deposit and redemption surface the vault inherits
      from its ERC4626 base contract, which is not among the sources and is
      modelled from the specification;
    - [VaultFactory] creates and copies vaults;
    - [Relayer] executes signed cycle intents.

    A [uint256] is an [N] with the checked arithmetic of Solidity 0.8 written
    out; an [address] is an [N] with [0] for [address(0)]; a Solidity mapping
    is a [gmap] read with default [0]; a call that reverts returns [Err] and
    leaves no state behind (a transaction is atomic). *)

From Stdlib Require Import NArith ZArith Lia.
From stdpp Require Import base decidable option list strings gmap.

Local Open Scope N_scope.

(** ** Errors and results *)

Inductive Error : Type :=
  (* libraries/Errors.sol *)
  | NotKeeper
  | IntervalNotElapsed
  | MaxSlippageExceeded
  | CapExceeded
  | Paused
  | ZeroAddress
  | InvalidParams
  | NotRelayer
  | MetaTxExpired
  (* require(cond, message): Error(string) *)
  | ErrorString (message : string)
  (* Panic(uint256): 17 arithmetic overflow or underflow, 18 division by zero *)
  | Panic (code : N)
  (* modifiers inherited from Ownable and ReentrancyGuard *)
  | OwnableUnauthorizedAccount (account : N)
  | ReentrancyGuardReentrantCall
  (* a high-level call to an address without code, a signature that does not
     recover *)
  | CallToNonContract (target : N)
  | ECDSAInvalidSignature
  (* anything an external router raises, passed on verbatim *)
  | RouterError (payload : string).

Inductive Result (A : Type) : Type :=
  | Ok (a : A)
  | Err (e : Error).
Arguments Ok {A} a.
Arguments Err {A} e.

#[global] Instance Result_ret : MRet Result := fun A a => Ok a.
#[global] Instance Result_bind : MBind Result :=
  fun A B f m => match m with Ok a => f a | Err e => Err e end.

Definition is_Ok {A} (r : Result A) : Prop := exists a, r = Ok a.
Definition is_Err {A} (r : Result A) : Prop := exists e, r = Err e.

(** ** uint256 arithmetic (Solidity 0.8: checked) *)

#[global] Instance N_gt_dec (a b : N) : Decision (a > b).
Proof. refine (cast_if (decide (b < a))); lia. Defined.

#[global] Instance N_ge_dec (a b : N) : Decision (a >= b).
Proof. refine (cast_if (decide (b <= a))); lia. Defined.

Definition MAX_UINT256 : N := 2 ^ 256 - 1.

Definition checked_add (a b : N) : Result N :=
  if decide (a + b <= MAX_UINT256) then Ok (a + b) else Err (Panic 17).

Definition checked_sub (a b : N) : Result N :=
  if decide (b <= a) then Ok (a - b) else Err (Panic 17).

Definition checked_mul (a b : N) : Result N :=
  if decide (a * b <= MAX_UINT256) then Ok (a * b) else Err (Panic 17).

Definition checked_div (a b : N) : Result N :=
  if decide (b = 0) then Err (Panic 18) else Ok (a / b).

(** ** Events *)

Inductive Event : Type :=
  | Fill (timestamp quoteIn baseOut : N)
  | ConfigUpdated (intervalSeconds maxSlippageBps perCycleQuoteCap feeBps keeper : N)
                  (paused : bool)
  | VaultCreated (vault base quote creator : N)
  | VaultCopied (src copy creator : N)
  | MetaTxExecuted (user vault quoteAmount baseOut relayerFee : N)
  | RelayerFeeUpdated (oldFee newFee : N).

(** ** Token ledgers: MockERC20

    One [Ledger] holds the [balanceOf] and [allowance] mappings of every
    token, keyed by the token's address first.  [sender] is [msg.sender] of
    the token call.  Token events are left out. *)

Record Ledger : Type := mkLedger {
  balances : gmap (N * N) N;          (* (token, holder) *)
  allowances : gmap (N * N * N) N     (* (token, owner, spender) *)
}.

Module MockERC20.

Definition balanceOf (L : Ledger) (token holder : N) : N :=
  default 0 (balances L !! (token, holder)).

Definition allowance (L : Ledger) (token owner spender : N) : N :=
  default 0 (allowances L !! (token, owner, spender)).

Definition set_balance (L : Ledger) (token holder amount : N) : Ledger :=
  mkLedger (<[(token, holder) := amount]> (balances L)) (allowances L).

Definition set_allowance (L : Ledger) (token owner spender amount : N) : Ledger :=
  mkLedger (balances L) (<[(token, owner, spender) := amount]> (allowances L)).

(** [mint(to, amount)] (the total supply of the token is not tracked). *)
Definition mint (L : Ledger) (token to amount : N) : Result Ledger :=
  b ← checked_add (balanceOf L token to) amount;
  Ok (set_balance L token to b).

(** [transfer(to, amount)]:
    [balanceOf[msg.sender] -= amount; balanceOf[to] += amount]. *)
Definition transfer (L : Ledger) (token sender to amount : N) : Result Ledger :=
  b ← checked_sub (balanceOf L token sender) amount;
  let L1 := set_balance L token sender b in
  b' ← checked_add (balanceOf L1 token to) amount;
  Ok (set_balance L1 token to b').

(** [approve(spender, amount)]: [allowance[msg.sender][spender] = amount]. *)
Definition approve (L : Ledger) (token sender spender amount : N) : Result Ledger :=
  Ok (set_allowance L token sender spender amount).

(** [transferFrom(from, to, amount)]:
    [allowance[from][msg.sender] -= amount; balanceOf[from] -= amount;
     balanceOf[to] += amount]. *)
Definition transferFrom (L : Ledger) (token sender from to amount : N)
  : Result Ledger :=
  a ← checked_sub (allowance L token from sender) amount;
  let L1 := set_allowance L token from sender a in
  b ← checked_sub (balanceOf L1 token from) amount;
  let L2 := set_balance L1 token from b in
  b' ← checked_add (balanceOf L2 token to) amount;
  Ok (set_balance L2 token to b').

(** The sum of all balances of [token]. *)
Definition circulating (L : Ledger) (token : N) : N :=
  map_fold (fun key amount total =>
              if decide (key.1 = token) then amount + total else total)
    0 (balances L).

End MockERC20.

(** ** The router interface (interfaces/IRouter.sol)

    [swapExactTokensForTokens this sender now amountIn amountOutMin path to
    deadline L] is the code deployed at address [this], called by [sender] at
    block time [now]; it returns the amounts and the ledgers it leaves, or
    reverts.  A router sees the token ledgers and its arguments only. *)

Class IRouter : Type := {
  swapExactTokensForTokens :
    N -> N -> N -> N -> N -> list N -> N -> N -> Ledger -> Result (list N * Ledger)
}.

(** The router of the test suite, with its [rate] and [slippageSimulation]. *)
Module MockRouter.

Definition swap (rate slippageSimulation : N)
    (this sender now amountIn amountOutMin : N) (path : list N) (to deadline : N)
    (L : Ledger) : Result (list N * Ledger) :=
  if decide (deadline < now) then Err (ErrorString "EXPIRED") else
  match path with
  | [tokenIn; tokenOut] =>
      p ← checked_mul amountIn rate;
      let amountOut := p / 10 ^ 18 in
      q ← checked_mul amountOut slippageSimulation;
      let slippageAmount := q / 10000 in
      amountOut ← checked_sub amountOut slippageAmount;
      if decide (amountOut < amountOutMin) then Err (ErrorString "INSUFFICIENT_OUTPUT") else
      L1 ← MockERC20.transferFrom L tokenIn this sender this amountIn;
      L2 ← MockERC20.transfer L1 tokenOut this to amountOut;
      Ok ([amountIn; amountOut], L2)
  | _ => Err (ErrorString "INVALID_PATH")
  end.

Definition router (rate slippageSimulation : N) : IRouter :=
  {| swapExactTokensForTokens := swap rate slippageSimulation |}.

End MockRouter.

(** ** MicroDcaVault.sol *)

Record Vault : Type := mkVault {
  self : N;                       (* address(this) *)
  router : N;                     (* immutable *)
  baseToken : N;                  (* immutable *)
  quoteToken : N;                 (* immutable, the ERC-4626 asset() *)
  owner : N;                      (* Ownable *)
  intervalSeconds : N;
  maxSlippageBps : N;
  perCycleQuoteCap : N;
  feeBps : N;
  keeper : N;
  paused : bool;
  lastExec : N;
  totalFilledQuote : N;
  totalFilledBase : N;
  entered : bool;                 (* ReentrancyGuard: a guarded call is running *)
  shares : gmap N N;              (* ERC20 balanceOf of the vault's share token *)
  totalSupply : N                 (* ERC20 totalSupply of the share token *)
}.

Module MicroDcaVault.

(** The constructor, run at address [this] at block time [now].  [keeper],
    [paused] and the counters keep the default value of their storage slot.
    (The base constructors read the base token's symbol and set the owner;
    both are taken to succeed.) *)
Definition constructor (this now : N)
    (_router _base _quote _intervalSeconds _maxSlippageBps _perCycleQuoteCap
     _feeBps _owner : N) : Result Vault :=
  if decide (_router = 0 \/ _base = 0 \/ _quote = 0) then Err ZeroAddress else
  Ok {| self := this;
        router := _router;
        baseToken := _base;
        quoteToken := _quote;
        owner := _owner;
        intervalSeconds := _intervalSeconds;
        maxSlippageBps := _maxSlippageBps;
        perCycleQuoteCap := _perCycleQuoteCap;
        feeBps := _feeBps;
        keeper := 0;
        paused := false;
        lastExec := now;
        totalFilledQuote := 0;
        totalFilledBase := 0;
        entered := false;
        shares := ∅;
        totalSupply := 0 |}.

(** Storage writes of [setConfig]. *)
Definition with_config (v : Vault)
    (_intervalSeconds _maxSlippageBps _perCycleQuoteCap _feeBps _keeper : N)
    (_paused : bool) : Vault :=
  {| self := self v; router := router v; baseToken := baseToken v;
     quoteToken := quoteToken v; owner := owner v;
     intervalSeconds := _intervalSeconds;
     maxSlippageBps := _maxSlippageBps;
     perCycleQuoteCap := _perCycleQuoteCap;
     feeBps := _feeBps;
     keeper := _keeper;
     paused := _paused;
     lastExec := lastExec v; totalFilledQuote := totalFilledQuote v;
     totalFilledBase := totalFilledBase v; entered := entered v;
     shares := shares v; totalSupply := totalSupply v |}.

(** Storage writes at the end of [executeCycle]. *)
Definition with_fill (v : Vault) (_lastExec _totalFilledQuote _totalFilledBase : N)
  : Vault :=
  {| self := self v; router := router v; baseToken := baseToken v;
     quoteToken := quoteToken v; owner := owner v;
     intervalSeconds := intervalSeconds v; maxSlippageBps := maxSlippageBps v;
     perCycleQuoteCap := perCycleQuoteCap v; feeBps := feeBps v;
     keeper := keeper v; paused := paused v;
     lastExec := _lastExec;
     totalFilledQuote := _totalFilledQuote;
     totalFilledBase := _totalFilledBase;
     entered := entered v;
     shares := shares v; totalSupply := totalSupply v |}.

(** [setConfig], guarded by [onlyOwner]. *)
Definition setConfig (v : Vault) (sender : N)
    (_intervalSeconds _maxSlippageBps _perCycleQuoteCap _feeBps _keeper : N)
    (_paused : bool) : Result (Vault * list Event) :=
  if decide (sender = owner v) then
    Ok (with_config v _intervalSeconds _maxSlippageBps _perCycleQuoteCap _feeBps
          _keeper _paused,
        [ConfigUpdated _intervalSeconds _maxSlippageBps _perCycleQuoteCap _feeBps
           _keeper _paused])
  else Err (OwnableUnauthorizedAccount sender).

Definition nextExecTime (v : Vault) : Result N :=
  checked_add (lastExec v) (intervalSeconds v).

Definition getConfig (v : Vault) : N * N * N * N * N * bool :=
  (intervalSeconds v, maxSlippageBps v, perCycleQuoteCap v, feeBps v, keeper v,
   paused v).

Definition previewCycleOut (quoteAmount : N) : N := quoteAmount.

(** [totalAssets]: the vault's quote balance plus its base balance. *)
Definition totalAssets (v : Vault) (L : Ledger) : Result N :=
  let quoteBalance := MockERC20.balanceOf L (quoteToken v) (self v) in
  let baseBalance := MockERC20.balanceOf L (baseToken v) (self v) in
  checked_add quoteBalance baseBalance.

(** [amounts[amounts.length - 1]]: on an empty array the subtraction
    underflows. *)
Definition last_amount (amounts : list N) : Result N :=
  match last amounts with
  | Some a => Ok a
  | None => Err (Panic 17)
  end.

(** The protocol fee step of [executeCycle]: the fee, and what is left of
    [baseOut], with the ledgers after the transfer to the owner. *)
Definition deduct_fee (v : Vault) (L : Ledger) (baseOut : N)
  : Result (N * N * Ledger) :=
  p ← checked_mul baseOut (feeBps v);
  let fee := p / 10000 in
  if decide (fee > 0) then
    L' ← MockERC20.transfer L (baseToken v) (self v) (owner v) fee;
    baseOut' ← checked_sub baseOut fee;
    Ok (fee, baseOut', L')
  else Ok (fee, baseOut, L).

(** [executeCycle(quoteAmount, minOut, beneficiary)] called by [sender] at
    block time [now].  The modifiers run in the order they are written:
    [notPaused], then [nonReentrant], then the body.  The guard is closed
    again when the call returns, so the vault it leaves has [entered] as
    before. *)
Definition executeCycle {R : IRouter} (v : Vault) (L : Ledger) (sender now : N)
    (quoteAmount minOut beneficiary : N)
  : Result (N * Vault * Ledger * list Event) :=
  if paused v then Err Paused else
  if entered v then Err ReentrancyGuardReentrantCall else
  if decide (keeper v <> 0 /\ sender <> keeper v) then Err NotKeeper else
  next ← checked_add (lastExec v) (intervalSeconds v);
  if decide (now < next) then Err IntervalNotElapsed else
  if decide (quoteAmount > perCycleQuoteCap v) then Err CapExceeded else
  let avail := MockERC20.balanceOf L (quoteToken v) (self v) in
  let quoteAmount := if decide (quoteAmount > avail) then avail else quoteAmount in
  if decide (quoteAmount > 0) then
    let path := [quoteToken v; baseToken v] in
    L1 ← MockERC20.approve L (quoteToken v) (self v) (router v) 0;
    L2 ← MockERC20.approve L1 (quoteToken v) (self v) (router v) quoteAmount;
    deadline ← checked_add now 300;
    '(amounts, L3) ← swapExactTokensForTokens (router v) (self v) now
                       quoteAmount minOut path (self v) deadline L2;
    baseOut ← last_amount amounts;
    if decide (baseOut >= minOut) then
      '(fee, baseOut, L4) ← deduct_fee v L3 baseOut;
      filledQuote ← checked_add (totalFilledQuote v) quoteAmount;
      filledBase ← checked_add (totalFilledBase v) baseOut;
      Ok (baseOut, with_fill v now filledQuote filledBase, L4,
          [Fill now quoteAmount baseOut])
    else Err (ErrorString "Slippage")
  else Err (ErrorString "NoQuote").

(** The amount swapped: the requested amount, bounded by the vault's quote
    balance. *)
Definition swapped (v : Vault) (L : Ledger) (quoteAmount : N) : N :=
  N.min quoteAmount (MockERC20.balanceOf L (quoteToken v) (self v)).

(** The ledgers the router is called on: [forceApprove(router, 0)] then
    [forceApprove(router, quoteAmount)]. *)
Definition approved (v : Vault) (L : Ledger) (amount : N) : Ledger :=
  MockERC20.set_allowance
    (MockERC20.set_allowance L (quoteToken v) (self v) (router v) 0)
    (quoteToken v) (self v) (router v) amount.

End MicroDcaVault.

(** ** The share ledger

    [deposit], [redeem] and [withdraw] are inherited by [MicroDcaVault] from
    its ERC4626 base contract, which is not among the sources;
    [MicroDcaVault.totalAssets] above is the vault's own override and is what
    the conversions read. *)
Module ShareLedger.

Definition balanceOf (v : Vault) (holder : N) : N := default 0 (shares v !! holder).

Definition with_shares (v : Vault) (_shares : gmap N N) (_totalSupply : N) : Vault :=
  {| self := self v; router := router v; baseToken := baseToken v;
     quoteToken := quoteToken v; owner := owner v;
     intervalSeconds := intervalSeconds v; maxSlippageBps := maxSlippageBps v;
     perCycleQuoteCap := perCycleQuoteCap v; feeBps := feeBps v;
     keeper := keeper v; paused := paused v; lastExec := lastExec v;
     totalFilledQuote := totalFilledQuote v;
     totalFilledBase := totalFilledBase v; entered := entered v;
     shares := _shares; totalSupply := _totalSupply |}.

(** The assets the vault counts: its quote balance plus its base balance. *)
Definition assets_held (v : Vault) (L : Ledger) : N :=
  MockERC20.balanceOf L (quoteToken v) (self v)
  + MockERC20.balanceOf L (baseToken v) (self v).

(** Modelled from the spec: the proportional-issuance rule of the inherited
    ERC4626 base contract (section 3): the first depositor receives shares
    1:1 with the deposited assets, later depositors receive
    [assets * totalSupply / totalAssets]. *)
Definition convertToShares (v : Vault) (L : Ledger) (assets : N) : Result N :=
  if decide (totalSupply v = 0) then Ok assets else
  total ← MicroDcaVault.totalAssets v L;
  p ← checked_mul assets (totalSupply v);
  checked_div p total.

(** Modelled from the spec: the inverse conversion of the inherited ERC4626
    base contract (section 4.1, "the corresponding asset amount"):
    [shares * totalAssets / totalSupply]. *)
Definition convertToAssets (v : Vault) (L : Ledger) (_shares : N) : Result N :=
  total ← MicroDcaVault.totalAssets v L;
  p ← checked_mul _shares total;
  checked_div p (totalSupply v).

(** Modelled from the spec: [deposit(assets, receiver)] of the inherited
    ERC4626 base contract (section 4.1): a zero amount is rejected as a caller
    error; otherwise [assets] quote tokens move from the caller into the
    vault, the shares of the issuance rule are minted to [receiver], and the
    minted share count is returned. *)
Definition deposit (v : Vault) (L : Ledger) (sender : N) (assets receiver : N)
  : Result (N * Vault * Ledger) :=
  if decide (assets = 0) then Err InvalidParams else
  minted ← convertToShares v L assets;
  L' ← MockERC20.transferFrom L (quoteToken v) (self v) sender (self v) assets;
  balance ← checked_add (balanceOf v receiver) minted;
  supply ← checked_add (totalSupply v) minted;
  Ok (minted, with_shares v (<[receiver := balance]> (shares v)) supply, L').

(** Modelled from the spec: [redeem(shares, receiver, owner)] of the inherited
    ERC4626 base contract (section 4.1): fails if the owner's share balance is
    insufficient; otherwise burns the owner's shares and transfers the
    corresponding asset amount (in quote tokens) to [receiver]. *)
Definition redeem (v : Vault) (L : Ledger) (sender : N) (_shares receiver _owner : N)
  : Result (N * Vault * Ledger) :=
  balance ← checked_sub (balanceOf v _owner) _shares;
  assets ← convertToAssets v L _shares;
  supply ← checked_sub (totalSupply v) _shares;
  L' ← MockERC20.transfer L (quoteToken v) (self v) receiver assets;
  Ok (assets, with_shares v (<[_owner := balance]> (shares v)) supply, L').

(** Modelled from the spec: [withdraw(assets, receiver, owner)] of the
    inherited ERC4626 base contract (section 4.1): the shares of the issuance
    rule for [assets] are burnt from the owner, failing if the owner's share
    balance is insufficient, and [assets] quote tokens go to [receiver]. *)
Definition withdraw (v : Vault) (L : Ledger) (sender : N) (assets receiver _owner : N)
  : Result (N * Vault * Ledger) :=
  burnt ← convertToShares v L assets;
  balance ← checked_sub (balanceOf v _owner) burnt;
  supply ← checked_sub (totalSupply v) burnt;
  L' ← MockERC20.transfer L (quoteToken v) (self v) receiver assets;
  Ok (burnt, with_shares v (<[_owner := balance]> (shares v)) supply, L').


(** One call of the share ledger that succeeded: a deposit by a caller other
    than the vault, or a redemption or withdrawal paid out to a receiver
    other than the vault. *)
Inductive step : Vault * Ledger -> Vault * Ledger -> Prop :=
  | step_deposit (v v' : Vault) (L L' : Ledger)
      (sender assets receiver minted : N) :
      sender <> self v ->
      deposit v L sender assets receiver = Ok (minted, v', L') ->
      step (v, L) (v', L')
  | step_redeem (v v' : Vault) (L L' : Ledger)
      (sender _shares receiver _owner returned : N) :
      receiver <> self v ->
      redeem v L sender _shares receiver _owner = Ok (returned, v', L') ->
      step (v, L) (v', L')
  | step_withdraw (v v' : Vault) (L L' : Ledger)
      (sender assets receiver _owner burnt : N) :
      receiver <> self v ->
      withdraw v L sender assets receiver _owner = Ok (burnt, v', L') ->
      step (v, L) (v', L').

End ShareLedger.

(** ** VaultFactory.sol

    [world] maps an address to the vault deployed there.  [new] is the address
    the chain gives to the contract being created. *)

Record Factory : Type := mkFactory {
  factory_router : N;             (* immutable router *)
  allVaults : list N;
  isVault : gmap N bool
}.

Module VaultFactory.

Definition constructor (_router : N) : Result Factory :=
  if decide (_router = 0) then Err ZeroAddress else
  Ok {| factory_router := _router; allVaults := []; isVault := ∅ |}.

(** [allVaults.push(vault); isVault[vault] = true]. *)
Definition track (f : Factory) (vault : N) : Factory :=
  {| factory_router := factory_router f;
     allVaults := allVaults f ++ [vault];
     isVault := <[vault := true]> (isVault f) |}.

Definition createVault (f : Factory) (world : gmap N Vault) (sender now new : N)
    (base quote _intervalSeconds _maxSlippageBps _perCycleQuoteCap _feeBps
     _keeper : N)
  : Result (N * Factory * gmap N Vault * list Event) :=
  if decide (base = 0 \/ quote = 0) then Err ZeroAddress else
  if decide (base = quote) then Err InvalidParams else
  if decide (_intervalSeconds = 0 \/ _maxSlippageBps > 10000 \/ _feeBps > 10000)
  then Err InvalidParams else
  v ← MicroDcaVault.constructor new now (factory_router f) base quote
        _intervalSeconds _maxSlippageBps _perCycleQuoteCap _feeBps sender;
  Ok (new, track f new, <[new := v]> world, [VaultCreated new base quote sender]).

(** [copyVault(src)]: the [try] fails when there is no vault at [src]. *)
Definition copyVault (f : Factory) (world : gmap N Vault) (sender now new : N)
    (src : N) : Result (N * Factory * gmap N Vault * list Event) :=
  if decide (src = 0) then Err ZeroAddress else
  match world !! src with
  | None => Err InvalidParams
  | Some s =>
      let '(_intervalSeconds, _maxSlippageBps, _perCycleQuoteCap, _feeBps, _, _) :=
        MicroDcaVault.getConfig s in
      v ← MicroDcaVault.constructor new now (factory_router f) (baseToken s)
            (quoteToken s) _intervalSeconds _maxSlippageBps _perCycleQuoteCap
            _feeBps sender;
      Ok (new, track f new, <[new := v]> world, [VaultCopied src new sender])
  end.

Definition getAllVaults (f : Factory) : list N := allVaults f.

Definition getVaultCount (f : Factory) : N := N.of_nat (length (allVaults f)).

(** [allVaults[index]]: an array read, which panics (0x32) out of bounds. *)
Definition vault_at (f : Factory) (index : N) : Result N :=
  match allVaults f !! N.to_nat index with
  | Some a => Ok a
  | None => Err (Panic 50)
  end.

Definition getVault (f : Factory) (index : N) : Result N :=
  if decide (index < N.of_nat (length (allVaults f))) then vault_at f index
  else Err (ErrorString "Index out of bounds").

(** The loop of [getVaultsPaginated] from index [i] on, with [remaining]
    iterations to go: [vaults[i] = allVaults[offset + i]; i++]. *)
Fixpoint fill_page (f : Factory) (offset i : N) (remaining : nat)
  : Result (list N) :=
  match remaining with
  | O => Ok []
  | S remaining' =>
      index ← checked_add offset i;
      a ← vault_at f index;
      rest ← fill_page f offset (i + 1) remaining';
      Ok (a :: rest)
  end.

Definition getVaultsPaginated (f : Factory) (offset limit : N)
  : Result (list N * N) :=
  let total := N.of_nat (length (allVaults f)) in
  if decide (offset >= total) then Ok ([], total) else
  _end ← checked_add offset limit;
  let _end := if decide (_end > total) then total else _end in
  _length ← checked_sub _end offset;
  vaults ← fill_page f offset 0 (N.to_nat _length);
  Ok (vaults, total).

(** The public getter of the [isVault] mapping. *)
Definition is_vault (f : Factory) (a : N) : bool := default false (isVault f !! a).

(** A state change of the factory: one of its calls that succeeded. *)
Inductive step : Factory -> Factory -> Prop :=
  | step_createVault (f f' : Factory) (world world' : gmap N Vault)
      (sender now new base quote _intervalSeconds _maxSlippageBps
       _perCycleQuoteCap _feeBps _keeper vault : N) (events : list Event) :
      createVault f world sender now new base quote _intervalSeconds
        _maxSlippageBps _perCycleQuoteCap _feeBps _keeper
        = Ok (vault, f', world', events) ->
      step f f'
  | step_copyVault (f f' : Factory) (world world' : gmap N Vault)
      (sender now new src vault : N) (events : list Event) :
      copyVault f world sender now new src = Ok (vault, f', world', events) ->
      step f f'.

End VaultFactory.

(** ** Relayer (second contract of VaultFactory.sol) *)

Module Relayer.

Record ExecuteCycle : Type := mkExecuteCycle {
  vault : N;
  quoteAmount : N;
  minOut : N;
  beneficiary : N;
  deadline : N;
  nonce : N
}.

(** [_hashTypedDataV4(structHash).recover(signature)]: the signer of an intent
    under the domain of the relayer deployed at [this], or a revert when the
    signature is malformed. *)
Class TypedDataSigner : Type := {
  recover : N -> ExecuteCycle -> list N -> Result N
}.

Record State : Type := mkState {
  this : N;                       (* address(this) *)
  relayer_owner : N;              (* Ownable *)
  relayerFeeBps : N;
  nonces : gmap N N
}.

Definition MAX_RELAYER_FEE_BPS : N := 1000.

Definition constructor (_this _initialFee _owner : N) : Result State :=
  if decide (_initialFee > MAX_RELAYER_FEE_BPS) then Err InvalidParams else
  Ok {| this := _this; relayer_owner := _owner; relayerFeeBps := _initialFee;
        nonces := ∅ |}.

Definition getNonce (r : State) (user : N) : N := default 0 (nonces r !! user).

Definition setRelayerFee (r : State) (sender _feeBps : N)
  : Result (State * list Event) :=
  if decide (sender = relayer_owner r) then
    if decide (_feeBps > MAX_RELAYER_FEE_BPS) then Err InvalidParams else
    Ok ({| this := this r; relayer_owner := relayer_owner r;
           relayerFeeBps := _feeBps; nonces := nonces r |},
        [RelayerFeeUpdated (relayerFeeBps r) _feeBps])
  else Err (OwnableUnauthorizedAccount sender).

(** [nonces[signer]++]. *)
Definition bump_nonce (r : State) (signer : N) : Result State :=
  n ← checked_add (getNonce r signer) 1;
  Ok {| this := this r; relayer_owner := relayer_owner r;
        relayerFeeBps := relayerFeeBps r;
        nonces := <[signer := n]> (nonces r) |}.

(** The relayer's cut of a successful cycle: the fee, what is left of
    [baseOut], and the ledgers after
    [baseToken.safeTransferFrom(address(vault), msg.sender, relayerFee)],
    a token call whose [msg.sender] is the relayer. *)
Definition take_relayer_fee (r : State) (L : Ledger) (token _vault sender : N)
    (baseOut : N) : Result (N * N * Ledger) :=
  p ← checked_mul baseOut (relayerFeeBps r);
  let relayerFee := p / 10000 in
  if decide (relayerFee > 0) then
    L' ← MockERC20.transferFrom L token (this r) _vault sender relayerFee;
    baseOut' ← checked_sub baseOut relayerFee;
    Ok (relayerFee, baseOut', L')
  else Ok (relayerFee, baseOut, L).

(** [executeMetaCycle(executeCycle, signature)] called by [sender] at block
    time [now].  The vault sees the relayer as its caller.  The [catch]
    re-raises what the vault raised. *)
Definition executeMetaCycle {R : IRouter} {S : TypedDataSigner}
    (r : State) (world : gmap N Vault) (L : Ledger) (sender now : N)
    (executeCycle : ExecuteCycle) (signature : list N)
  : Result (N * State * gmap N Vault * Ledger * list Event) :=
  if decide (now > deadline executeCycle) then Err MetaTxExpired else
  signer ← recover (this r) executeCycle signature;
  if decide (nonce executeCycle <> getNonce r signer) then Err InvalidParams else
  r' ← bump_nonce r signer;
  match world !! vault executeCycle with
  | None => Err (CallToNonContract (vault executeCycle))
  | Some v =>
      '(baseReceived, v', L1, events) ←
        MicroDcaVault.executeCycle v L (this r) now (quoteAmount executeCycle)
          (minOut executeCycle) (beneficiary executeCycle);
      '(relayerFee, baseOut, L2) ←
        take_relayer_fee r' L1 (baseToken v') (vault executeCycle) sender
          baseReceived;
      Ok (baseOut, r', <[vault executeCycle := v']> world, L2,
          events ++ [MetaTxExecuted signer (vault executeCycle)
                       (quoteAmount executeCycle) baseOut relayerFee])
  end.

Definition verifySignature {S : TypedDataSigner} (r : State) (now : N)
    (executeCycle : ExecuteCycle) (signature : list N) : Result (N * bool) :=
  if decide (now > deadline executeCycle) then Ok (0, false) else
  signer ← recover (this r) executeCycle signature;
  Ok (signer,
      bool_decide (nonce executeCycle = getNonce r signer)
      && bool_decide (signer <> 0)).

(** A state change of the relayer: one of its calls that succeeded (a call
    that reverts leaves the state as it was). *)
Inductive step {R : IRouter} {S : TypedDataSigner} : State -> State -> Prop :=
  | step_executeMetaCycle (r r' : State) (world world' : gmap N Vault)
      (L L' : Ledger) (sender now : N) (executeCycle : ExecuteCycle)
      (signature : list N) (baseOut : N) (events : list Event) :
      executeMetaCycle r world L sender now executeCycle signature
        = Ok (baseOut, r', world', L', events) ->
      step r r'
  | step_setRelayerFee (r r' : State) (sender _feeBps : N) (events : list Event) :
      setRelayerFee r sender _feeBps = Ok (r', events) ->
      step r r'.

End Relayer.

(** ** The vault's public surface as one transition function

    A [Call] names an operation of the vault with its arguments; [call] runs
    it for [sender] at block time [now].  The public getters of the storage
    variables are plain reads and are not listed. *)

Inductive Call : Type :=
  | CallSetConfig (_intervalSeconds _maxSlippageBps _perCycleQuoteCap _feeBps
                   _keeper : N) (_paused : bool)
  | CallExecuteCycle (quoteAmount minOut beneficiary : N)
  | CallDeposit (assets receiver : N)
  | CallRedeem (_shares receiver _owner : N)
  | CallWithdraw (assets receiver _owner : N)
  | CallNextExecTime
  | CallPreviewCycleOut (quoteAmount : N)
  | CallTotalAssets
  | CallGetConfig.

Inductive Returned : Type :=
  | RetNone
  | RetUint (n : N)
  | RetConfig (config : N * N * N * N * N * bool).

Definition call {R : IRouter} (c : Call) (v : Vault) (L : Ledger) (sender now : N)
  : Result (Returned * Vault * Ledger * list Event) :=
  match c with
  | CallSetConfig i m q f k p =>
      '(v', events) ← MicroDcaVault.setConfig v sender i m q f k p;
      Ok (RetNone, v', L, events)
  | CallExecuteCycle quoteAmount minOut beneficiary =>
      '(baseOut, v', L', events) ←
        MicroDcaVault.executeCycle v L sender now quoteAmount minOut beneficiary;
      Ok (RetUint baseOut, v', L', events)
  | CallDeposit assets receiver =>
      '(minted, v', L') ← ShareLedger.deposit v L sender assets receiver;
      Ok (RetUint minted, v', L', [])
  | CallRedeem _shares receiver _owner =>
      '(assets, v', L') ← ShareLedger.redeem v L sender _shares receiver _owner;
      Ok (RetUint assets, v', L', [])
  | CallWithdraw assets receiver _owner =>
      '(burnt, v', L') ← ShareLedger.withdraw v L sender assets receiver _owner;
      Ok (RetUint burnt, v', L', [])
  | CallNextExecTime =>
      t ← MicroDcaVault.nextExecTime v; Ok (RetUint t, v, L, [])
  | CallPreviewCycleOut quoteAmount =>
      Ok (RetUint (MicroDcaVault.previewCycleOut quoteAmount), v, L, [])
  | CallTotalAssets =>
      t ← MicroDcaVault.totalAssets v L; Ok (RetUint t, v, L, [])
  | CallGetConfig => Ok (RetConfig (MicroDcaVault.getConfig v), v, L, [])
  end.

(** [v] with another value in its [maxSlippageBps] slot. *)
Definition with_maxSlippageBps (v : Vault) (_maxSlippageBps : N) : Vault :=
  {| self := self v; router := router v; baseToken := baseToken v;
     quoteToken := quoteToken v; owner := owner v;
     intervalSeconds := intervalSeconds v;
     maxSlippageBps := _maxSlippageBps;
     perCycleQuoteCap := perCycleQuoteCap v; feeBps := feeBps v;
     keeper := keeper v; paused := paused v; lastExec := lastExec v;
     totalFilledQuote := totalFilledQuote v;
     totalFilledBase := totalFilledBase v; entered := entered v;
     shares := shares v; totalSupply := totalSupply v |}.

(** Two vaults that differ in [maxSlippageBps] at most. *)
Definition same_but_maxSlippageBps (v1 v2 : Vault) : Prop :=
  with_maxSlippageBps v1 0 = with_maxSlippageBps v2 0.

(** Two outcomes with the same result or the same error, the same ledgers and
    events, and vaults that differ in [maxSlippageBps] at most. *)
Definition same_outcome (r1 r2 : Result (Returned * Vault * Ledger * list Event))
  : Prop :=
  match r1, r2 with
  | Ok (x1, v1, L1, events1), Ok (x2, v2, L2, events2) =>
      x1 = x2 /\ same_but_maxSlippageBps v1 v2 /\ L1 = L2 /\ events1 = events2
  | Err e1, Err e2 => e1 = e2
  | _, _ => False
  end.

(** ** A concrete deployment

    The set-up of the test suite: a router with rate 1:1 and no simulated
    slippage holding base tokens, a vault created through the factory by
    [OWNER] with interval 60, slippage 50 bps, cap [100e18] and fee 10 bps,
    holding [1000e18] quote tokens, and a relayer with a fee of 25 bps. *)
Module Scenario.

Definition ROUTER : N := 100.
Definition BASE : N := 101.
Definition QUOTE : N := 102.
Definition OWNER : N := 1.
Definition USER : N := 2.
Definition KEEPER : N := 3.
Definition GASPAYER : N := 4.
Definition VAULT : N := 200.
Definition RELAYER : N := 400.
Definition e18 : N := 10 ^ 18.
Definition T0 : N := 1000.       (* block time of the deployment *)

Definition mock : IRouter := MockRouter.router e18 0.

(** A stand-in signature scheme: a signature is the one-element list that
    names its signer. *)
Definition tagged : Relayer.TypedDataSigner :=
  {| Relayer.recover := fun _ _ signature =>
       match signature with
       | [signer] => Ok signer
       | _ => Err ECDSAInvalidSignature
       end |}.

Definition factory0 : Factory :=
  {| factory_router := ROUTER; allVaults := []; isVault := ∅ |}.

Definition vault0 : Vault :=
  {| self := VAULT; router := ROUTER; baseToken := BASE; quoteToken := QUOTE;
     owner := OWNER; intervalSeconds := 60; maxSlippageBps := 50;
     perCycleQuoteCap := 100 * e18; feeBps := 10; keeper := 0; paused := false;
     lastExec := T0; totalFilledQuote := 0; totalFilledBase := 0;
     entered := false; shares := ∅; totalSupply := 0 |}.

Definition ledger0 : Ledger :=
  {| balances := <[(QUOTE, VAULT) := 1000 * e18]>
                   (<[(BASE, ROUTER) := 10000 * e18]> ∅);
     allowances := ∅ |}.

(** [ledger0] after the router swapped [50e18] of the vault's quote tokens
    at time [T0 + 60]. *)
Definition ledger_swapped : Ledger :=
  {| balances := <[(BASE, VAULT) := 50 * e18]>
                   (<[(BASE, ROUTER) := 9950 * e18]>
                      (<[(QUOTE, ROUTER) := 50 * e18]>
                         (<[(QUOTE, VAULT) := 950 * e18]> ∅)));
     allowances := <[(QUOTE, VAULT, ROUTER) := 0]> ∅ |}.

(** [vault0] after [setConfig] named a keeper, running and paused. *)
Definition keeper_vault : Vault :=
  MicroDcaVault.with_config vault0 60 50 (100 * e18) 10 KEEPER false.
Definition paused_keeper_vault : Vault :=
  MicroDcaVault.with_config vault0 60 50 (100 * e18) 10 KEEPER true.

(** The vault after that cycle, with [1000e18] shares held by [USER], and the
    ledgers with a second depositor who has approved the vault. *)
Definition DEPOSITOR : N := 5.



Definition relayer0 : Relayer.State :=
  {| Relayer.this := RELAYER; Relayer.relayer_owner := OWNER;
     Relayer.relayerFeeBps := 25; Relayer.nonces := ∅ |}.

(** The same relayer charging nothing. *)
Definition free_relayer : Relayer.State :=
  {| Relayer.this := RELAYER; Relayer.relayer_owner := OWNER;
     Relayer.relayerFeeBps := 0; Relayer.nonces := ∅ |}.

(** [free_relayer] after it executed one intent signed by [USER]. *)
Definition free_relayer_used : Relayer.State :=
  {| Relayer.this := RELAYER; Relayer.relayer_owner := OWNER;
     Relayer.relayerFeeBps := 0; Relayer.nonces := <[USER := 1]> ∅ |}.

Definition world0 : gmap N Vault := <[VAULT := vault0]> ∅.

(** [vault0] reconfigured by its owner to values [createVault] refuses. *)
Definition odd_vault : Vault :=
  MicroDcaVault.with_config vault0 0 20000 (100 * e18) 20000 KEEPER true.

(** [vault0] with the largest interval [createVault] accepts, and with a
    fee rate of 200%. *)
Definition stuck_vault : Vault :=
  MicroDcaVault.with_config vault0 MAX_UINT256 50 (100 * e18) 10 0 false.
Definition greedy_vault : Vault :=
  MicroDcaVault.with_config vault0 60 50 (100 * e18) 20000 0 false.

(** A factory that has created five vaults. *)
Definition factory5 : Factory :=
  {| factory_router := ROUTER;
     allVaults := [200; 201; 202; 203; 204];
     isVault := <[204 := true]> (<[203 := true]> (<[202 := true]>
                  (<[201 := true]> (<[200 := true]> ∅)))) |}.

Definition intent0 : Relayer.ExecuteCycle :=
  {| Relayer.vault := VAULT; Relayer.quoteAmount := 50 * e18;
     Relayer.minOut := 0; Relayer.beneficiary := USER;
     Relayer.deadline := T0 + 600; Relayer.nonce := 0 |}.

(** The ledgers before anybody has deposited: the vault holds nothing, and
    [DEPOSITOR] has approved it for the quote tokens it owns. *)
Definition ledger_unfunded : Ledger :=
  {| balances := <[(QUOTE, DEPOSITOR) := 100]> ∅;
     allowances := <[(QUOTE, DEPOSITOR, VAULT) := 100]> ∅ |}.

(** A vault deployed with the quote token as its base token too (the
    constructor checks the addresses against zero only). *)
Definition same_token_vault : Vault :=
  {| self := VAULT; router := ROUTER; baseToken := QUOTE; quoteToken := QUOTE;
     owner := OWNER; intervalSeconds := 60; maxSlippageBps := 50;
     perCycleQuoteCap := 100 * e18; feeBps := 10; keeper := 0; paused := false;
     lastExec := T0; totalFilledQuote := 0; totalFilledBase := 0;
     entered := false; shares := ∅; totalSupply := 0 |}.

(** [ledger0] with the vault's base tokens made available to the relayer, an
    allowance that no code of the vault grants. *)
Definition ledger_approved : Ledger :=
  {| balances := balances ledger0;
     allowances := <[(BASE, VAULT, RELAYER) := MAX_UINT256]> ∅ |}.

(** [relayer0] with its fee at the bound. *)
Definition relayer_max : Relayer.State :=
  {| Relayer.this := RELAYER; Relayer.relayer_owner := OWNER;
     Relayer.relayerFeeBps := 1000; Relayer.nonces := ∅ |}.

End Scenario.

(** * Properties *)

(** ** The result monad and checked arithmetic *)

Lemma bind_Ok_inv {A B : Type} (m : Result A) (f : A -> Result B) (b : B) :
  m ≫= f = Ok b -> exists a, m = Ok a /\ f a = Ok b.
Proof. destruct m as [a|e]; simpl; [eauto | discriminate]. Qed.

Lemma checked_add_Ok (a b c : N) :
  checked_add a b = Ok c <-> c = a + b /\ a + b <= MAX_UINT256.
Proof.
  unfold checked_add. case_decide; split; intros Hc;
    try discriminate; try (injection Hc as <-); intuition (subst; auto; lia).
Qed.

Lemma checked_sub_Ok (a b c : N) :
  checked_sub a b = Ok c <-> c = a - b /\ b <= a.
Proof.
  unfold checked_sub. case_decide; split; intros Hc;
    try discriminate; try (injection Hc as <-); intuition (subst; auto; lia).
Qed.

Lemma checked_mul_Ok (a b c : N) :
  checked_mul a b = Ok c <-> c = a * b /\ a * b <= MAX_UINT256.
Proof.
  unfold checked_mul. case_decide; split; intros Hc;
    try discriminate; try (injection Hc as <-); intuition (subst; auto; lia).
Qed.

Lemma checked_div_Ok (a b c : N) :
  checked_div a b = Ok c <-> c = a / b /\ b <> 0.
Proof.
  unfold checked_div. case_decide; split; intros Hc;
    try discriminate; try (injection Hc as <-); intuition (subst; auto; lia).
Qed.

Lemma checked_add_in_range (a b : N) :
  a + b <= MAX_UINT256 -> checked_add a b = Ok (a + b).
Proof. intros Hr. unfold checked_add. rewrite decide_True by exact Hr. reflexivity. Qed.

Lemma checked_add_overflow (a b : N) :
  ~ a + b <= MAX_UINT256 -> checked_add a b = Err (Panic 17).
Proof. intros Hr. unfold checked_add. rewrite decide_False by exact Hr. reflexivity. Qed.

Lemma checked_sub_in_range (a b : N) : b <= a -> checked_sub a b = Ok (a - b).
Proof. intros Hr. unfold checked_sub. rewrite decide_True by exact Hr. reflexivity. Qed.

Lemma checked_sub_underflow (a b : N) : a < b -> checked_sub a b = Err (Panic 17).
Proof. intros Hr. unfold checked_sub. rewrite decide_False by lia. reflexivity. Qed.

Lemma checked_mul_in_range (a b : N) :
  a * b <= MAX_UINT256 -> checked_mul a b = Ok (a * b).
Proof. intros Hr. unfold checked_mul. rewrite decide_True by exact Hr. reflexivity. Qed.

(** Take apart a hypothesis stating that a chain of calls returned [Ok]. *)
Ltac inv_Ok H :=
  repeat match type of H with
  | (_ ≫= _) = Ok _ =>
      let a := fresh "a" in let Ha := fresh "Ha" in
      apply bind_Ok_inv in H as (a & Ha & H); simpl in H
  | (let '(_, _) := ?p in _) = Ok _ => destruct p; simpl in H
  | (if decide ?P then _ else _) = Ok _ => destruct (decide P); simpl in H
  | (if ?b then _ else _) = Ok _ => destruct b eqn:?; simpl in H
  | Err _ = Ok _ => discriminate H
  end.

(** Settle the decisions of the goal that the context decides. *)
Ltac settle_decide :=
  repeat match goal with
  | |- context [decide ?P] =>
      first [ rewrite (decide_True (P := P)) by (first [assumption | lia | tauto])
            | rewrite (decide_False (P := P)) by (first [assumption | lia | tauto]) ]
  end.

(** ** Token ledger lemmas *)

Section LedgerFacts.
Import MockERC20.

Lemma balanceOf_set_balance (L : Ledger) (t h a t' h' : N) :
  balanceOf (set_balance L t h a) t' h' =
  if decide ((t, h) = (t', h')) then a else balanceOf L t' h'.
Proof.
  unfold balanceOf, set_balance; simpl. rewrite lookup_insert.
  case_decide; reflexivity.
Qed.

Lemma balanceOf_set_allowance (L : Ledger) (t o s a t' h' : N) :
  balanceOf (set_allowance L t o s a) t' h' = balanceOf L t' h'.
Proof. reflexivity. Qed.

Lemma allowance_set_balance (L : Ledger) (t h a t' o' s' : N) :
  allowance (set_balance L t h a) t' o' s' = allowance L t' o' s'.
Proof. reflexivity. Qed.

Lemma allowance_set_allowance (L : Ledger) (t o s a t' o' s' : N) :
  allowance (set_allowance L t o s a) t' o' s' =
  if decide ((t, o, s) = (t', o', s')) then a else allowance L t' o' s'.
Proof.
  unfold allowance, set_allowance; simpl. rewrite lookup_insert.
  case_decide; reflexivity.
Qed.

(** What a successful [transfer] does to any balance. *)
Lemma transfer_balanceOf (L L' : Ledger) (t from to amount t' h : N) :
  transfer L t from to amount = Ok L' ->
  amount <= balanceOf L t from /\
  balanceOf L' t' h =
    balanceOf L t' h
    - (if decide ((t, from) = (t', h)) then amount else 0)
    + (if decide ((t, to) = (t', h)) then amount else 0).
Proof.
  unfold transfer. intros Ht. inv_Ok Ht.
  apply checked_sub_Ok in Ha as [-> Hle]. apply checked_add_Ok in Ha0 as [-> _].
  injection Ht as <-. split; [exact Hle|].
  rewrite balanceOf_set_balance in *.
  repeat (rewrite ?balanceOf_set_balance; case_decide); simplify_eq; lia.
Qed.


Lemma transfer_allowance (L L' : Ledger) (t from to amount t' o s : N) :
  transfer L t from to amount = Ok L' ->
  allowance L' t' o s = allowance L t' o s.
Proof.
  unfold transfer. intros Ht. inv_Ok Ht. injection Ht as <-. reflexivity.
Qed.

(** A successful [transferFrom] spends allowance of the caller. *)
Lemma transferFrom_allowance (L L' : Ledger) (t sender from to amount : N) :
  transferFrom L t sender from to amount = Ok L' ->
  amount <= allowance L t from sender.
Proof.
  unfold transferFrom. intros Ht. inv_Ok Ht.
  apply checked_sub_Ok in Ha as [_ Hle]. exact Hle.
Qed.

Lemma transferFrom_balanceOf (L L' : Ledger) (t sender from to amount t' h : N) :
  transferFrom L t sender from to amount = Ok L' ->
  amount <= balanceOf L t from /\
  balanceOf L' t' h =
    balanceOf L t' h
    - (if decide ((t, from) = (t', h)) then amount else 0)
    + (if decide ((t, to) = (t', h)) then amount else 0).
Proof.
  unfold transferFrom. intros Ht. inv_Ok Ht.
  apply checked_sub_Ok in Ha0 as [-> Hle]. apply checked_add_Ok in Ha1 as [-> _].
  injection Ht as <-. rewrite balanceOf_set_allowance in *.
  split; [exact Hle|].
  repeat (rewrite ?balanceOf_set_balance, ?balanceOf_set_allowance; case_decide);
    simplify_eq; lia.
Qed.

End LedgerFacts.

(** ** The cycle engine *)

Section CycleEngine.
Context {R : IRouter}.
Import MicroDcaVault.

Lemma deduct_fee_Ok (v : Vault) (L L' : Ledger) (baseOut fee net : N) :
  deduct_fee v L baseOut = Ok (fee, net, L') ->
  fee = baseOut * feeBps v / 10000 /\
  net = baseOut - fee /\
  fee <= baseOut /\
  (fee = 0 /\ L' = L \/
   0 < fee /\ MockERC20.transfer L (baseToken v) (self v) (owner v) fee = Ok L').
Proof.
  unfold deduct_fee. intros Hd. inv_Ok Hd.
  - apply checked_mul_Ok in Ha as [-> _].
    apply checked_sub_Ok in Ha1 as [-> Hle].
    injection Hd as <- <- <-.
    split; [reflexivity|]. split; [reflexivity|]. split; [exact Hle|].
    right. split; [lia | assumption].
  - apply checked_mul_Ok in Ha as [-> _]. injection Hd as <- <- <-.
    split; [reflexivity|].
    generalize dependent (baseOut * feeBps v / 10000). intros fee Hfee.
    split; [lia|]. split; [lia|].
    left. split; [lia | reflexivity].
Qed.

(** Everything a successful [executeCycle] went through. *)
Lemma executeCycle_Ok_inv (v : Vault) (L : Ledger)
    (sender now quoteAmount minOut beneficiary : N)
    (ret : N) (v' : Vault) (L' : Ledger) (events : list Event) :
  executeCycle v L sender now quoteAmount minOut beneficiary
    = Ok (ret, v', L', events) ->
  paused v = false /\ entered v = false /\
  (keeper v = 0 \/ sender = keeper v) /\
  lastExec v + intervalSeconds v <= now /\
  quoteAmount <= perCycleQuoteCap v /\
  0 < swapped v L quoteAmount /\
  exists (amounts : list N) (L3 : Ledger) (routerBaseOut fee : N),
    swapExactTokensForTokens (router v) (self v) now (swapped v L quoteAmount)
      minOut [quoteToken v; baseToken v] (self v) (now + 300)
      (approved v L (swapped v L quoteAmount)) = Ok (amounts, L3) /\
    last amounts = Some routerBaseOut /\
    minOut <= routerBaseOut /\
    deduct_fee v L3 routerBaseOut = Ok (fee, ret, L') /\
    v' = with_fill v now (totalFilledQuote v + swapped v L quoteAmount)
           (totalFilledBase v + ret) /\
    events = [Fill now (swapped v L quoteAmount) ret].
Proof.
  unfold executeCycle, swapped, approved. intros He.
  destruct (paused v); [discriminate|].
  destruct (entered v); [discriminate|].
  inv_Ok He.
  apply checked_add_Ok in Ha as [-> Hnext].
  apply checked_add_Ok in Ha0 as [-> _].
  apply checked_add_Ok in Ha4 as [-> _].
  apply checked_add_Ok in Ha5 as [-> _].
  unfold last_amount in Ha2. destruct (last l) as [b|] eqn:Hlast; [|discriminate].
  injection Ha2 as <-. injection He as <- <- <- <-.
  set (avail := MockERC20.balanceOf L (quoteToken v) (self v)) in *.
  assert (Hmin : (if decide (quoteAmount > avail) then avail else quoteAmount)
                 = N.min quoteAmount avail) by (case_decide; lia).
  rewrite Hmin in *.
  split; [reflexivity|]. split; [reflexivity|].
  split.
  { destruct (decide (keeper v = 0)); [left; assumption | right].
    destruct (decide (sender = keeper v)); [assumption | exfalso; tauto]. }
  split; [lia|]. split; [lia|]. split; [lia|].
  exists l, l0, b, n2. repeat split; try assumption; lia.
Qed.


(** Before the interval has elapsed a cycle fails, whatever the state. *)
Lemma executeCycle_early_fails (v : Vault) (L : Ledger)
    (sender now quoteAmount minOut beneficiary : N) :
  now < lastExec v + intervalSeconds v ->
  is_Err (executeCycle v L sender now quoteAmount minOut beneficiary).
Proof.
  intros Hearly. unfold executeCycle, is_Err.
  destruct (paused v); [eauto|]. destruct (entered v); [eauto|].
  destruct (decide (keeper v <> 0 /\ sender <> keeper v)); [eauto|].
  destruct (decide (lastExec v + intervalSeconds v <= MAX_UINT256)).
  - rewrite (checked_add_in_range (lastExec v)) by assumption. simpl.
    settle_decide. eauto.
  - rewrite (checked_add_overflow (lastExec v)) by assumption. simpl. eauto.
Qed.

(** A paused vault refuses a cycle before it looks at the caller. *)
Lemma executeCycle_paused (v : Vault) (L : Ledger)
    (sender now quoteAmount minOut beneficiary : N) :
  paused v = true ->
  executeCycle v L sender now quoteAmount minOut beneficiary = Err Paused.
Proof. intros Hp. unfold executeCycle. rewrite Hp. reflexivity. Qed.

(** C4 (as amended): in a vault that is not paused and not inside a running
    cycle, with a keeper set and a caller who is not the keeper, [executeCycle]
    fails with [NotKeeper] for all argument values.  The pause check runs
    first: a paused vault fails with [Paused] whoever calls. *)
Theorem executeCycle_not_keeper (v : Vault) (L : Ledger)
    (sender now quoteAmount minOut beneficiary : N) :
  keeper v <> 0 -> sender <> keeper v ->
  (paused v = true ->
     executeCycle v L sender now quoteAmount minOut beneficiary = Err Paused)
  /\
  (paused v = false -> entered v = false ->
     executeCycle v L sender now quoteAmount minOut beneficiary = Err NotKeeper).
Proof.
  intros Hset Hother. split.
  - apply executeCycle_paused.
  - intros Hp He. unfold executeCycle. rewrite Hp, He.
    rewrite decide_True by (split; assumption). reflexivity.
Qed.



End CycleEngine.

(** ** The cycle engine on the concrete deployment *)

Section CycleEngineExamples.
Import Scenario MicroDcaVault.

(** The mock router credits the recipient with exactly the output it
    reports. *)
Lemma MockRouter_credits_recipient (rate slippageSimulation : N)
    (this sender now amountIn amountOutMin tokenIn tokenOut to deadline : N)
    (L L' : Ledger) (amounts : list N) :
  MockRouter.swap rate slippageSimulation this sender now amountIn amountOutMin
    [tokenIn; tokenOut] to deadline L = Ok (amounts, L') ->
  tokenIn <> tokenOut -> to <> this ->
  exists amountOut : N,
    last amounts = Some amountOut /\
    amountOutMin <= amountOut /\
    MockERC20.balanceOf L' tokenOut to
      = MockERC20.balanceOf L tokenOut to + amountOut.
Proof.
  unfold MockRouter.swap. intros Hs Htok Hto. inv_Ok Hs.
  injection Hs as <- <-. exists a1. split; [reflexivity|]. split; [lia|].
  pose proof (transferFrom_balanceOf _ _ _ _ _ _ _ tokenOut to Ha2) as [_ H1].
  pose proof (transfer_balanceOf _ _ _ _ _ _ tokenOut to Ha3) as [_ H2].
  rewrite !decide_False in H1 by congruence.
  rewrite decide_False in H2 by congruence.
  rewrite decide_True in H2 by reflexivity. lia.
Qed.

(** C4, the claim as stated fails: [paused_keeper_vault] has a keeper, the
    caller is not the keeper, and the call fails with [Paused], not with
    [NotKeeper]. *)
Lemma executeCycle_paused_before_keeper :
  keeper paused_keeper_vault <> 0 /\
  USER <> keeper paused_keeper_vault /\
  executeCycle (R := mock) paused_keeper_vault ledger0 USER (T0 + 60)
    (50 * e18) (50 * e18) USER = Err Paused /\
  executeCycle (R := mock) paused_keeper_vault ledger0 USER (T0 + 60)
    (50 * e18) (50 * e18) USER <> Err NotKeeper.
Proof. vm_compute. repeat split; discriminate. Qed.

Lemma executeCycle_not_keeper_witness :
  executeCycle (R := mock) keeper_vault ledger0 USER (T0 + 60)
    (50 * e18) (50 * e18) USER = Err NotKeeper.
Proof.
  apply (executeCycle_not_keeper (R := mock) keeper_vault ledger0 USER (T0 + 60)
           (50 * e18) (50 * e18) USER); vm_compute; [lia | lia | reflexivity..].
Defined.



End CycleEngineExamples.

(** ** The stored slippage bound *)

Section SlippageBound.
Context {R : IRouter}.

Lemma same_outcome_refl (r : Result (Returned * Vault * Ledger * list Event)) :
  same_outcome r r.
Proof.
  destruct r as [[[[x v] L] events]|e]; simpl; [|reflexivity].
  repeat split; reflexivity.
Qed.

(** C10: [maxSlippageBps] is stored and reported, and nothing else: on two
    vaults that differ only in that field every operation other than
    [getConfig], with the same arguments, caller, time and ledgers, gives the
    same result or the same error, the same ledgers and events, and vaults
    that again differ only in that field; a cycle that succeeds had a router
    output of at least the caller's [minOut]. *)
Theorem maxSlippageBps_unused (c : Call) (v1 v2 : Vault) (L : Ledger)
    (sender now : N) :
  same_but_maxSlippageBps v1 v2 ->
  (c <> CallGetConfig ->
     same_outcome (call c v1 L sender now) (call c v2 L sender now))
  /\
  (forall (quoteAmount minOut beneficiary ret : N) (v' : Vault) (L' : Ledger)
          (events : list Event),
     MicroDcaVault.executeCycle v1 L sender now quoteAmount minOut beneficiary
       = Ok (ret, v', L', events) ->
     exists (amounts : list N) (L3 : Ledger) (routerBaseOut : N),
       swapExactTokensForTokens (router v1) (self v1) now
         (MicroDcaVault.swapped v1 L quoteAmount) minOut
         [quoteToken v1; baseToken v1] (self v1) (now + 300)
         (MicroDcaVault.approved v1 L (MicroDcaVault.swapped v1 L quoteAmount))
         = Ok (amounts, L3) /\
       last amounts = Some routerBaseOut /\
       minOut <= routerBaseOut).
Proof.
  intros Hsame. split.
  - intros Hc. destruct v1, v2. unfold same_but_maxSlippageBps in Hsame.
    injection Hsame as -> -> -> -> -> -> -> -> -> -> -> -> -> -> -> ->.
    destruct c; try congruence; unfold call;
      unfold MicroDcaVault.setConfig, MicroDcaVault.executeCycle,
        MicroDcaVault.deduct_fee, MicroDcaVault.nextExecTime,
        MicroDcaVault.previewCycleOut,
        ShareLedger.deposit, ShareLedger.redeem, ShareLedger.withdraw,
        ShareLedger.convertToShares, ShareLedger.convertToAssets,
        ShareLedger.balanceOf, MicroDcaVault.totalAssets,
        MicroDcaVault.with_config, MicroDcaVault.with_fill,
        ShareLedger.with_shares, same_but_maxSlippageBps, with_maxSlippageBps;
      unfold mbind, Result_bind; simpl;
      repeat (case_match; simplify_eq; simpl; try reflexivity);
      repeat split; reflexivity.
  - intros quoteAmount minOut beneficiary ret v' L' events Hok.
    apply executeCycle_Ok_inv in Hok
      as (_ & _ & _ & _ & _ & _ & amounts & L3 & b & fee & Hswap & Hlast & Hmin & _).
    exists amounts, L3, b. auto.
Qed.

End SlippageBound.

Lemma maxSlippageBps_unused_witness :
  same_outcome
    (call (R := Scenario.mock)
       (CallExecuteCycle (50 * Scenario.e18) (50 * Scenario.e18) Scenario.USER)
       Scenario.vault0 Scenario.ledger0 Scenario.USER (Scenario.T0 + 60))
    (call (R := Scenario.mock)
       (CallExecuteCycle (50 * Scenario.e18) (50 * Scenario.e18) Scenario.USER)
       (with_maxSlippageBps Scenario.vault0 10000) Scenario.ledger0
       Scenario.USER (Scenario.T0 + 60)).
Proof.
  destruct (maxSlippageBps_unused (R := Scenario.mock)
              (CallExecuteCycle (50 * Scenario.e18) (50 * Scenario.e18)
                 Scenario.USER)
              Scenario.vault0 (with_maxSlippageBps Scenario.vault0 10000)
              Scenario.ledger0 Scenario.USER (Scenario.T0 + 60))
    as [Hsame _]; [reflexivity|].
  exact (Hsame ltac:(discriminate)).
Defined.

(** ** The factory and the configuration bounds *)

Section FactoryFacts.
Import Scenario MicroDcaVault VaultFactory.

(** The vault [createVault] deploys has no keeper, whatever keeper the
    creator passed: the constructor takes no keeper and leaves the slot at
    its default. *)
Lemma createVault_keeper_unset (f f' : Factory) (world world' : gmap N Vault)
    (sender now new base quote _intervalSeconds _maxSlippageBps
     _perCycleQuoteCap _feeBps _keeper vault : N) (events : list Event) :
  createVault f world sender now new base quote _intervalSeconds
    _maxSlippageBps _perCycleQuoteCap _feeBps _keeper
    = Ok (vault, f', world', events) ->
  exists v : Vault,
    world' !! vault = Some v /\
    getConfig v = (_intervalSeconds, _maxSlippageBps, _perCycleQuoteCap,
                   _feeBps, 0, false).
Proof.
  unfold createVault. intros Hc. inv_Ok Hc.
  unfold MicroDcaVault.constructor in Ha. inv_Ok Ha.
  injection Ha as <-. injection Hc as <- <- <- <-.
  eexists. split; [apply lookup_insert_eq | reflexivity].
Qed.

(** [createVault] accepts no slippage or fee above 10000 bps. *)
Lemma createVault_bounds (f f' : Factory) (world world' : gmap N Vault)
    (sender now new base quote _intervalSeconds _maxSlippageBps
     _perCycleQuoteCap _feeBps _keeper vault : N) (events : list Event) :
  createVault f world sender now new base quote _intervalSeconds
    _maxSlippageBps _perCycleQuoteCap _feeBps _keeper
    = Ok (vault, f', world', events) ->
  _maxSlippageBps <= 10000 /\ _feeBps <= 10000.
Proof. unfold createVault. intros Hc. inv_Ok Hc. lia. Qed.

(** [setConfig] called by the owner stores whatever it is given. *)
Lemma setConfig_stores (v : Vault)
    (_intervalSeconds _maxSlippageBps _perCycleQuoteCap _feeBps _keeper : N)
    (_paused : bool) :
  exists (v' : Vault) (events : list Event),
    setConfig v (owner v) _intervalSeconds _maxSlippageBps _perCycleQuoteCap
      _feeBps _keeper _paused = Ok (v', events) /\
    getConfig v' = (_intervalSeconds, _maxSlippageBps, _perCycleQuoteCap,
                    _feeBps, _keeper, _paused).
Proof.
  unfold setConfig. rewrite decide_True by reflexivity.
  eexists _, _. split; reflexivity.
Qed.

(** C1, on the deployment of the test suite: the creator passes [KEEPER],
    the call succeeds, and the vault it deploys reports keeper [0]; a caller
    who is not [KEEPER] then runs a cycle. *)
Theorem createVault_drops_keeper :
  exists (f' : Factory) (world' : gmap N Vault),
    createVault factory0 ∅ OWNER T0 VAULT BASE QUOTE 60 50 (100 * e18) 10 KEEPER
      = Ok (VAULT, f', world', [VaultCreated VAULT BASE QUOTE OWNER]) /\
    world' !! VAULT = Some vault0 /\
    getConfig vault0 = (60, 50, 100 * e18, 10, 0, false) /\
    KEEPER <> 0 /\ USER <> KEEPER /\
    is_Ok (executeCycle (R := mock) vault0 ledger0 USER (T0 + 60) (50 * e18)
             (50 * e18) USER).
Proof.
  eexists _, _. split; [vm_compute; reflexivity|].
  split; [vm_compute; reflexivity|]. split; [vm_compute; reflexivity|].
  split; [discriminate|]. split; [discriminate|].
  eexists. vm_compute. reflexivity.
Qed.

(** C3, on the deployment of the test suite: the vault the factory created
    is within the bounds, and one [setConfig] by its owner takes both
    [maxSlippageBps] and [feeBps] above 10000. *)
Theorem setConfig_breaks_bps_bound :
  maxSlippageBps vault0 <= 10000 /\ feeBps vault0 <= 10000 /\
  exists (v' : Vault) (events : list Event),
    setConfig vault0 OWNER 60 10001 (100 * e18) 10001 0 false = Ok (v', events) /\
    maxSlippageBps v' = 10001 /\ feeBps v' = 10001 /\
    ~ (maxSlippageBps v' <= 10000) /\ ~ (feeBps v' <= 10000).
Proof.
  split; [vm_compute; discriminate|]. split; [vm_compute; discriminate|].
  eexists _, _. split; [vm_compute; reflexivity|].
  split; [reflexivity|]. split; [reflexivity|].
  split; vm_compute; intros Hle; apply Hle; reflexivity.
Qed.

End FactoryFacts.

(** ** The relayer *)

Section RelayerFacts.
Context {R : IRouter} {S : Relayer.TypedDataSigner}.
Import Relayer.

Lemma allowance_transferFrom (L L' : Ledger) (t sender from to amount : N)
    (t' o s : N) :
  MockERC20.transferFrom L t sender from to amount = Ok L' ->
  MockERC20.allowance L' t' o s =
    if decide ((t, from, sender) = (t', o, s))
    then MockERC20.allowance L t from sender - amount
    else MockERC20.allowance L t' o s.
Proof.
  unfold MockERC20.transferFrom. intros Ht. inv_Ok Ht.
  apply checked_sub_Ok in Ha as [-> _]. injection Ht as <-.
  rewrite !allowance_set_balance. apply allowance_set_allowance.
Qed.

Lemma bump_nonce_Ok (r r' : State) (signer : N) :
  bump_nonce r signer = Ok r' ->
  getNonce r' signer = getNonce r signer + 1 /\
  (forall a : N, a <> signer -> getNonce r' a = getNonce r a) /\
  this r' = this r /\ relayerFeeBps r' = relayerFeeBps r.
Proof.
  unfold bump_nonce. intros Hb. inv_Ok Hb.
  apply checked_add_Ok in Ha as [-> _]. injection Hb as <-.
  unfold getNonce; simpl. split; [by rewrite lookup_insert_eq|].
  split; [|split; reflexivity].
  intros a' Hne. by rewrite lookup_insert_ne.
Qed.

Lemma take_relayer_fee_Ok (r : State) (L L' : Ledger)
    (token _vault sender baseOut relayerFee net : N) :
  take_relayer_fee r L token _vault sender baseOut = Ok (relayerFee, net, L') ->
  relayerFee = baseOut * relayerFeeBps r / 10000 /\
  net = baseOut - relayerFee /\
  relayerFee <= baseOut /\
  (relayerFee = 0 /\ L' = L \/
   0 < relayerFee /\
   MockERC20.transferFrom L token (this r) _vault sender relayerFee = Ok L').
Proof.
  unfold take_relayer_fee. intros Ht. inv_Ok Ht.
  - apply checked_mul_Ok in Ha as [-> _].
    apply checked_sub_Ok in Ha1 as [-> Hle]. injection Ht as <- <- <-.
    split; [reflexivity|]. split; [reflexivity|]. split; [exact Hle|].
    right. split; [lia | assumption].
  - apply checked_mul_Ok in Ha as [-> _]. injection Ht as <- <- <-.
    split; [reflexivity|].
    generalize dependent (baseOut * relayerFeeBps r / 10000). intros fee Hfee.
    split; [lia|]. split; [lia|]. left. split; [lia | reflexivity].
Qed.

(** Everything a successful [executeMetaCycle] went through. *)
Lemma executeMetaCycle_Ok_inv (r r' : State) (world world' : gmap N Vault)
    (L L' : Ledger) (sender now : N) (intent : ExecuteCycle)
    (signature : list N) (baseOut : N) (events : list Event) :
  executeMetaCycle r world L sender now intent signature
    = Ok (baseOut, r', world', L', events) ->
  now <= deadline intent /\
  exists (signer : N) (v v' : Vault) (L1 : Ledger) (baseReceived relayerFee : N)
         (fill : list Event),
    recover (this r) intent signature = Ok signer /\
    nonce intent = getNonce r signer /\
    bump_nonce r signer = Ok r' /\
    world !! vault intent = Some v /\
    MicroDcaVault.executeCycle v L (this r) now (quoteAmount intent)
      (minOut intent) (beneficiary intent) = Ok (baseReceived, v', L1, fill) /\
    take_relayer_fee r' L1 (baseToken v') (vault intent) sender baseReceived
      = Ok (relayerFee, baseOut, L') /\
    world' = <[vault intent := v']> world /\
    events = fill ++ [MetaTxExecuted signer (vault intent) (quoteAmount intent)
                        baseOut relayerFee].
Proof.
  unfold executeMetaCycle. intros Hm. inv_Ok Hm.
  destruct (world !! vault intent) as [v|] eqn:Hv; [|discriminate].
  inv_Ok Hm. injection Hm as <- <- <- <- <-.
  split; [lia|].
  exists a, v, v0, l0, n1, n2, l.
  repeat split; try assumption.
  destruct (decide (nonce intent = getNonce r a)); [assumption | contradiction].
Qed.





End RelayerFacts.

(** ** The relayer's fee against the mock token and router *)

Section RelayerFee.
Context {S : Relayer.TypedDataSigner}.
Variables rate slippageSimulation : N.
Import Relayer.

(** The mock router spends allowance on the input token only. *)
Lemma MockRouter_allowance (this sender now amountIn amountOutMin : N)
    (tokenIn tokenOut to deadline : N) (L L' : Ledger) (amounts : list N)
    (t o s : N) :
  MockRouter.swap rate slippageSimulation this sender now amountIn amountOutMin
    [tokenIn; tokenOut] to deadline L = Ok (amounts, L') ->
  t <> tokenIn ->
  MockERC20.allowance L' t o s = MockERC20.allowance L t o s.
Proof.
  unfold MockRouter.swap. intros Hs Ht. inv_Ok Hs. injection Hs as _ <-.
  rewrite (transfer_allowance _ _ _ _ _ _ t o s Ha3).
  rewrite (allowance_transferFrom _ _ _ _ _ _ _ t o s Ha2).
  rewrite decide_False by congruence. reflexivity.
Qed.

(** A cycle leaves every allowance on the base token as it was: the vault
    approves its router for quote tokens and nobody for base tokens. *)
Lemma executeCycle_base_allowance (v v' : Vault) (L L' : Ledger)
    (sender now quoteAmount minOut beneficiary ret : N) (events : list Event)
    (o s : N) :
  MicroDcaVault.executeCycle (R := MockRouter.router rate slippageSimulation)
    v L sender now quoteAmount minOut beneficiary = Ok (ret, v', L', events) ->
  baseToken v <> quoteToken v ->
  baseToken v' = baseToken v /\
  MockERC20.allowance L' (baseToken v) o s = MockERC20.allowance L (baseToken v) o s.
Proof.
  intros Hok Htok.
  apply executeCycle_Ok_inv in Hok
    as (_ & _ & _ & _ & _ & _ & amounts & L3 & b & fee & Hswap & _ & _ & Hfee
        & -> & _).
  split; [reflexivity|].
  apply deduct_fee_Ok in Hfee as (_ & _ & _ & Hmove).
  assert (H3 : MockERC20.allowance L3 (baseToken v) o s
               = MockERC20.allowance L (baseToken v) o s).
  { simpl in Hswap.
    rewrite (MockRouter_allowance _ _ _ _ _ _ _ _ _ _ _ _ (baseToken v) o s Hswap)
      by exact Htok.
    unfold MicroDcaVault.approved. rewrite !allowance_set_allowance.
    rewrite !decide_False by congruence. reflexivity. }
  destruct Hmove as [[_ ->] | [_ Ht]]; [exact H3|].
  rewrite (transfer_allowance _ _ _ _ _ _ (baseToken v) o s Ht). exact H3.
Qed.

(** While the vault has granted the relayer no allowance on its base tokens,
    a meta-transaction that succeeds took no relayer fee: with a positive fee
    the pull from the vault reverts, and the whole call with it. *)
Lemma executeMetaCycle_takes_no_fee (r r' : State) (world world' : gmap N Vault)
    (L L' : Ledger) (sender now : N) (intent : ExecuteCycle)
    (signature : list N) (baseOut : N) (events : list Event) (v : Vault) :
  world !! vault intent = Some v ->
  baseToken v <> quoteToken v ->
  MockERC20.allowance L (baseToken v) (vault intent) (this r) = 0 ->
  executeMetaCycle (R := MockRouter.router rate slippageSimulation)
    r world L sender now intent signature
    = Ok (baseOut, r', world', L', events) ->
  exists baseReceived : N,
    baseReceived * relayerFeeBps r / 10000 = 0 /\ baseOut = baseReceived.
Proof.
  intros Hv Htok Hzero Hm.
  apply executeMetaCycle_Ok_inv in Hm
    as (_ & signer & v0 & v' & L1 & b & fee & fill & _ & _ & Hb & Hv0 & Hcyc
        & Htake & _).
  rewrite Hv in Hv0. injection Hv0 as <-.
  apply bump_nonce_Ok in Hb as (_ & _ & Hthis & Hbps).
  destruct (executeCycle_base_allowance _ _ _ _ _ _ _ _ _ _ _
              (vault intent) (this r) Hcyc Htok) as [Hbase Hallow].
  apply take_relayer_fee_Ok in Htake as (-> & -> & _ & Hmove).
  rewrite Hbps in *. exists b.
  destruct Hmove as [[Hz _] | [Hpos Hpull]].
  - split; [exact Hz | rewrite Hz; lia].
  - apply transferFrom_allowance in Hpull.
    rewrite Hbase, Hthis, Hallow, Hzero in Hpull. lia.
Qed.

End RelayerFee.

Section RelayerExamples.
Import Scenario Relayer.

(** C2, on the deployment of the test suite: the relayer charges 25 bps, the
    cycle it forwards succeeds with an output of [49.95e18], the fee on it is
    positive, and the meta-transaction reverts in the pull of that fee from
    the vault, which has approved nobody for its base tokens. *)
Theorem executeMetaCycle_fee_pull_reverts :
  deadline intent0 >= T0 + 60 /\
  recover (TypedDataSigner := tagged) RELAYER intent0 [USER] = Ok USER /\
  nonce intent0 = getNonce relayer0 USER /\
  (exists (v' : Vault) (L1 : Ledger) (fill : list Event),
     MicroDcaVault.executeCycle (R := mock) vault0 ledger0 RELAYER (T0 + 60)
       (quoteAmount intent0) (minOut intent0) (beneficiary intent0)
       = Ok (4995 * e18 / 100, v', L1, fill) /\
     MockERC20.allowance L1 BASE VAULT RELAYER = 0) /\
  0 < (4995 * e18 / 100) * relayerFeeBps relayer0 / 10000 /\
  executeMetaCycle (R := mock) (S := tagged) relayer0 world0 ledger0 GASPAYER
    (T0 + 60) intent0 [USER] = Err (Panic 17).
Proof.
  split; [vm_compute; discriminate|]. split; [reflexivity|].
  split; [reflexivity|]. split.
  - eexists _, _, _. split; vm_compute; reflexivity.
  - split; vm_compute; reflexivity.
Qed.


End RelayerExamples.

(** ** The share ledger *)

Section ShareLedgerFacts.
Import ShareLedger.

Lemma totalAssets_Ok (v : Vault) (L : Ledger) (total : N) :
  MicroDcaVault.totalAssets v L = Ok total -> total = assets_held v L.
Proof.
  unfold MicroDcaVault.totalAssets. intros Ht.
  apply checked_add_Ok in Ht as [-> _]. reflexivity.
Qed.

(** What a successful [deposit] by somebody other than the vault did. *)
Lemma deposit_Ok (v v1 : Vault) (L L1 : Ledger) (sender assets receiver minted : N) :
  deposit v L sender assets receiver = Ok (minted, v1, L1) ->
  baseToken v <> quoteToken v -> sender <> self v ->
  0 < assets /\
  (totalSupply v = 0 /\ minted = assets \/
   totalSupply v <> 0 /\ assets_held v L <> 0 /\
   minted = assets * totalSupply v / assets_held v L) /\
  totalSupply v1 = totalSupply v + minted /\
  ShareLedger.balanceOf v1 receiver = ShareLedger.balanceOf v receiver + minted /\
  self v1 = self v /\ quoteToken v1 = quoteToken v /\ baseToken v1 = baseToken v /\
  assets_held v1 L1 = assets_held v L + assets.
Proof.
  unfold deposit. intros Hd Htok Hsender. inv_Ok Hd.
  apply checked_add_Ok in Ha1 as [-> _]. apply checked_add_Ok in Ha2 as [-> _].
  injection Hd as <- <- <-.
  split; [lia|]. split.
  { unfold convertToShares in Ha. inv_Ok Ha.
    - left. injection Ha as <-. split; [assumption | reflexivity].
    - right. apply totalAssets_Ok in Ha1 as ->.
      apply checked_mul_Ok in Ha2 as [-> _]. apply checked_div_Ok in Ha as [-> Hnz].
      repeat split; assumption. }
  split; [reflexivity|]. split.
  { unfold ShareLedger.balanceOf; simpl. by rewrite lookup_insert_eq. }
  split; [reflexivity|]. split; [reflexivity|]. split; [reflexivity|].
  unfold assets_held; simpl.
  pose proof (transferFrom_balanceOf _ _ _ _ _ _ _ (quoteToken v) (self v) Ha0)
    as [_ Hq].
  pose proof (transferFrom_balanceOf _ _ _ _ _ _ _ (baseToken v) (self v) Ha0)
    as [_ Hb].
  rewrite decide_False in Hq by congruence.
  rewrite decide_True in Hq by reflexivity.
  rewrite !decide_False in Hb by congruence. lia.
Qed.

(** What a successful [redeem] returned. *)
Lemma redeem_Ok (v v2 : Vault) (L L2 : Ledger)
    (sender _shares receiver _owner returned : N) :
  redeem v L sender _shares receiver _owner = Ok (returned, v2, L2) ->
  _shares <= ShareLedger.balanceOf v _owner /\
  totalSupply v <> 0 /\
  returned = _shares * assets_held v L / totalSupply v.
Proof.
  unfold redeem. intros Hr. inv_Ok Hr. injection Hr as <- <- <-.
  apply checked_sub_Ok in Ha as [_ Hle].
  unfold convertToAssets in Ha0. inv_Ok Ha0.
  apply totalAssets_Ok in Ha as ->. apply checked_mul_Ok in Ha3 as [-> _].
  apply checked_div_Ok in Ha0 as [-> Hnz].
  repeat split; assumption.
Qed.

(** Deposits and withdrawals keep assets and shares 1:1 once they are:
    without a cycle (or tokens sent to the vault directly) the share price
    stays at one. *)
Lemma deposit_keeps_parity (v v1 : Vault) (L L1 : Ledger)
    (sender assets receiver minted : N) :
  deposit v L sender assets receiver = Ok (minted, v1, L1) ->
  baseToken v <> quoteToken v -> sender <> self v ->
  assets_held v L = totalSupply v ->
  minted = assets /\ assets_held v1 L1 = totalSupply v1.
Proof.
  intros Hd Htok Hsender Hpar.
  apply deposit_Ok in Hd
    as (_ & Hminted & Hsupply & _ & _ & _ & _ & Hheld); [|assumption..].
  assert (Hm : minted = assets).
  { destruct Hminted as [[_ ->] | (HS & _ & ->)]; [reflexivity|].
    rewrite Hpar. apply N.div_mul. exact HS. }
  split; [exact Hm | lia].
Qed.

Lemma redeem_keeps_parity (v v2 : Vault) (L L2 : Ledger)
    (sender _shares receiver _owner returned : N) :
  redeem v L sender _shares receiver _owner = Ok (returned, v2, L2) ->
  baseToken v <> quoteToken v -> receiver <> self v ->
  assets_held v L = totalSupply v ->
  returned = _shares /\ assets_held v2 L2 = totalSupply v2.
Proof.
  intros Hr Htok Hrecv Hpar.
  pose proof (redeem_Ok _ _ _ _ _ _ _ _ _ Hr) as (_ & Hnz & Hret).
  rewrite Hpar in Hret. rewrite N.div_mul in Hret by exact Hnz.
  split; [exact Hret|].
  unfold redeem in Hr. inv_Ok Hr. injection Hr as <- <- <-.
  apply checked_sub_Ok in Ha1 as [-> Hle]. subst a0.
  unfold assets_held in *; simpl.
  pose proof (transfer_balanceOf _ _ _ _ _ _ (quoteToken v) (self v) Ha2)
    as [Hhas Hq].
  pose proof (transfer_balanceOf _ _ _ _ _ _ (baseToken v) (self v) Ha2)
    as [_ Hb].
  rewrite decide_True in Hq by reflexivity.
  rewrite decide_False in Hq by congruence.
  rewrite !decide_False in Hb by congruence. lia.
Qed.

Lemma withdraw_keeps_parity (v v2 : Vault) (L L2 : Ledger)
    (sender assets receiver _owner burnt : N) :
  withdraw v L sender assets receiver _owner = Ok (burnt, v2, L2) ->
  baseToken v <> quoteToken v -> receiver <> self v ->
  assets_held v L = totalSupply v ->
  burnt = assets /\ assets_held v2 L2 = totalSupply v2.
Proof.
  unfold withdraw. intros Hw Htok Hrecv Hpar. inv_Ok Hw.
  injection Hw as <- <- <-.
  apply checked_sub_Ok in Ha1 as [-> Hle].
  assert (Hb : a = assets).
  { unfold convertToShares in Ha. inv_Ok Ha.
    - injection Ha as <-. reflexivity.
    - apply totalAssets_Ok in Ha1 as ->. apply checked_mul_Ok in Ha3 as [-> _].
      apply checked_div_Ok in Ha as [-> _]. rewrite Hpar.
      apply N.div_mul. assumption. }
  subst a. split; [reflexivity|].
  unfold assets_held in *; simpl.
  pose proof (transfer_balanceOf _ _ _ _ _ _ (quoteToken v) (self v) Ha2)
    as [Hhas Hq].
  pose proof (transfer_balanceOf _ _ _ _ _ _ (baseToken v) (self v) Ha2)
    as [_ Hbase].
  rewrite decide_True in Hq by reflexivity.
  rewrite decide_False in Hq by congruence.
  rewrite !decide_False in Hbase by congruence. lia.
Qed.









(** Why the two tokens must differ: [totalAssets] adds the base balance to
    the quote balance, so a vault whose base token is its quote token counts
    every deposit twice: after a first deposit of 10, a deposit of 10 mints 5
    shares, and redeeming them at once returns 13. *)
Lemma round_trip_same_token_gains :
  exists (v1 v2 v3 : Vault) (L1 L2 L3 : Ledger),
    deposit Scenario.same_token_vault Scenario.ledger_unfunded
      Scenario.DEPOSITOR 10 Scenario.DEPOSITOR = Ok (10, v1, L1) /\
    deposit v1 L1 Scenario.DEPOSITOR 10 Scenario.DEPOSITOR = Ok (5, v2, L2) /\
    redeem v2 L2 Scenario.DEPOSITOR 5 Scenario.DEPOSITOR Scenario.DEPOSITOR
      = Ok (13, v3, L3).
Proof.
  eexists _, _, _, _, _, _.
  split; [vm_compute; reflexivity|]. split; [vm_compute; reflexivity|].
  vm_compute. reflexivity.
Qed.

(** C6: [deposit(0, receiver)] is rejected, in every state and for every
    caller and receiver. *)
Theorem deposit_zero_rejected (v : Vault) (L : Ledger) (sender receiver : N) :
  deposit v L sender 0 receiver = Err InvalidParams.
Proof. reflexivity. Qed.

End ShareLedgerFacts.

(** ** The factory's registry and its pages *)

Section FactoryRegistry.
Import VaultFactory.

Lemma fill_page_slice (f : Factory) (offset : N) (remaining : nat) :
  forall i : N,
    offset + i + N.of_nat remaining <= getVaultCount f ->
    offset + i + N.of_nat remaining <= MAX_UINT256 ->
    fill_page f offset i remaining
      = Ok (take remaining (drop (N.to_nat (offset + i)) (allVaults f))).
Proof.
  unfold getVaultCount.
  induction remaining as [|k IH]; intros i Hcount Hmax; simpl.
  - rewrite take_0. reflexivity.
  - rewrite (checked_add_in_range offset i) by lia. simpl.
    destruct (lookup_lt_is_Some_2 (allVaults f) (N.to_nat (offset + i)))
      as [a Ha]; [lia|].
    unfold vault_at. rewrite Ha. simpl.
    rewrite (IH (i + 1)) by lia. simpl.
    rewrite (drop_S _ _ _ Ha). simpl.
    replace (N.to_nat (offset + (i + 1))) with (S (N.to_nat (offset + i))) by lia.
    reflexivity.
Qed.

(** A page is the slice of [allVaults] that starts at [offset] and holds at
    most [limit] entries, whenever [offset + limit] fits a uint256 or
    [offset] is past the end. *)
Lemma getVaultsPaginated_slice (f : Factory) (offset limit : N) :
  getVaultCount f <= offset \/ offset + limit <= MAX_UINT256 ->
  getVaultsPaginated f offset limit
    = Ok (take (N.to_nat limit) (drop (N.to_nat offset) (allVaults f)),
          getVaultCount f).
Proof.
  intros Hfit. unfold getVaultsPaginated, getVaultCount in *.
  set (total := N.of_nat (length (allVaults f))) in *.
  destruct (decide (offset >= total)) as [Hpast|Hin].
  - rewrite drop_ge by lia. rewrite take_nil. reflexivity.
  - assert (Hsum : offset + limit <= MAX_UINT256) by lia.
    rewrite (checked_add_in_range offset limit) by exact Hsum. simpl.
    set (e := if decide (offset + limit > total) then total else offset + limit).
    assert (He : e = N.min (offset + limit) total)
      by (subst e; case_decide; lia).
    rewrite (checked_sub_in_range e offset) by lia. simpl.
    rewrite (fill_page_slice f offset (N.to_nat (e - offset)) 0)
      by (unfold getVaultCount; fold total; lia).
    simpl. rewrite N.add_0_r. f_equal. f_equal.
    destruct (decide (offset + limit <= total)) as [Hshort|Hlong].
    + f_equal. lia.
    + rewrite !take_ge by (rewrite length_drop; lia). reflexivity.
Qed.

(** X1: the entries of a page are the entries of [allVaults] from [offset]
    on, in creation order; the page holds [min(limit, count - offset)] of
    them, none when [offset] is past the end; and the total returned is the
    number of vaults.  The loop never reads out of bounds. *)
Theorem getVaultsPaginated_entries (f : Factory) (offset limit total : N)
    (vaults : list N) :
  getVaultsPaginated f offset limit = Ok (vaults, total) ->
  total = getVaultCount f /\
  N.of_nat (length vaults) = N.min limit (getVaultCount f - offset) /\
  forall i : nat,
    (i < length vaults)%nat ->
    vaults !! i = allVaults f !! (N.to_nat offset + i)%nat.
Proof.
  intros Hpage.
  assert (Hfit : getVaultCount f <= offset \/ offset + limit <= MAX_UINT256).
  { unfold getVaultsPaginated, getVaultCount in *.
    destruct (decide (offset >= N.of_nat (length (allVaults f)))); [left; lia|].
    right. inv_Ok Hpage. apply checked_add_Ok in Ha as [_ Hle]. exact Hle. }
  rewrite (getVaultsPaginated_slice f offset limit Hfit) in Hpage.
  injection Hpage as <- <-. split; [reflexivity|]. unfold getVaultCount.
  split.
  - rewrite length_take, length_drop. lia.
  - intros i Hi. rewrite length_take in Hi.
    rewrite lookup_take_lt by lia. apply lookup_drop.
Qed.

Lemma getVaultsPaginated_entries_witness :
  exists vaults : list N,
    getVaultsPaginated Scenario.factory5 3 3 = Ok (vaults, 5) /\
    N.of_nat (length vaults) = 2.
Proof.
  exists [203; 204].
  assert (Hpage : getVaultsPaginated Scenario.factory5 3 3 = Ok ([203; 204], 5))
    by (vm_compute; reflexivity).
  split; [exact Hpage|].
  destruct (getVaultsPaginated_entries _ _ _ _ _ Hpage) as (_ & Hlen & _).
  exact Hlen.
Defined.

(** X2: when a page request succeeds: past the end it returns the empty page
    whatever the limit; inside the list it succeeds when [offset + limit]
    fits a uint256 and reverts with an arithmetic panic when it does not,
    although the entries asked for exist. *)
Theorem getVaultsPaginated_bounds (f : Factory) (offset limit : N) :
  (getVaultCount f <= offset ->
   getVaultsPaginated f offset limit = Ok ([], getVaultCount f))
  /\
  (offset < getVaultCount f -> offset + limit <= MAX_UINT256 ->
   is_Ok (getVaultsPaginated f offset limit))
  /\
  (offset < getVaultCount f -> MAX_UINT256 < offset + limit ->
   getVaultsPaginated f offset limit = Err (Panic 17)).
Proof.
  split; [|split].
  - intros Hpast. rewrite getVaultsPaginated_slice by (left; exact Hpast).
    unfold getVaultCount in Hpast. rewrite drop_ge by lia.
    rewrite take_nil. reflexivity.
  - intros _ Hfit. rewrite getVaultsPaginated_slice by (right; exact Hfit).
    unfold is_Ok. eauto.
  - intros Hin Hover. unfold getVaultsPaginated, getVaultCount in *.
    rewrite decide_False by lia.
    rewrite (checked_add_overflow offset limit) by lia. reflexivity.
Qed.

Lemma getVaultsPaginated_bounds_witness :
  getVaultsPaginated Scenario.factory5 10 MAX_UINT256 = Ok ([], 5) /\
  getVaultsPaginated Scenario.factory5 1 MAX_UINT256 = Err (Panic 17).
Proof.
  destruct (getVaultsPaginated_bounds Scenario.factory5 10 MAX_UINT256)
    as [Hpast _].
  destruct (getVaultsPaginated_bounds Scenario.factory5 1 MAX_UINT256)
    as (_ & _ & Hover).
  split.
  - apply Hpast. vm_compute. discriminate.
  - apply Hover; vm_compute; reflexivity.
Defined.

(** X3: consecutive pages neither overlap nor skip: the page of [a] entries
    at [offset] followed by the page of [b] entries at [offset + a] is the
    page of [a + b] entries at [offset]. *)
Theorem getVaultsPaginated_consecutive (f : Factory) (offset a b : N) :
  offset + a + b <= MAX_UINT256 ->
  exists first second : list N,
    getVaultsPaginated f offset a = Ok (first, getVaultCount f) /\
    getVaultsPaginated f (offset + a) b = Ok (second, getVaultCount f) /\
    getVaultsPaginated f offset (a + b) = Ok (first ++ second, getVaultCount f).
Proof.
  intros Hfit.
  rewrite (getVaultsPaginated_slice f offset a) by lia.
  rewrite (getVaultsPaginated_slice f (offset + a) b) by lia.
  rewrite (getVaultsPaginated_slice f offset (a + b)) by lia.
  eexists _, _. split; [reflexivity|]. split; [reflexivity|].
  f_equal. f_equal.
  replace (N.to_nat (offset + a)) with (N.to_nat offset + N.to_nat a)%nat by lia.
  rewrite <- drop_drop.
  replace (N.to_nat (a + b)) with (N.to_nat a + N.to_nat b)%nat by lia.
  symmetry. apply take_take_drop.
Qed.

Lemma getVaultsPaginated_consecutive_witness :
  exists first second : list N,
    getVaultsPaginated Scenario.factory5 1 2 = Ok (first, 5) /\
    getVaultsPaginated Scenario.factory5 3 7 = Ok (second, 5) /\
    getVaultsPaginated Scenario.factory5 1 9 = Ok (first ++ second, 5).
Proof.
  apply (getVaultsPaginated_consecutive Scenario.factory5 1 2 7).
  vm_compute. discriminate.
Defined.

(** X4: [getVault] never panics: below the count it returns the entry of
    [allVaults], which is also what the one-entry page at that index holds;
    from the count on it fails with "Index out of bounds". *)
Theorem getVault_in_bounds (f : Factory) (index : N) :
  (index < getVaultCount f ->
   exists a : N,
     getVault f index = Ok a /\
     allVaults f !! N.to_nat index = Some a /\
     (index + 1 <= MAX_UINT256 ->
      getVaultsPaginated f index 1 = Ok ([a], getVaultCount f)))
  /\
  (getVaultCount f <= index ->
   getVault f index = Err (ErrorString "Index out of bounds")).
Proof.
  unfold getVault, getVaultCount. split.
  - intros Hin. rewrite decide_True by exact Hin.
    destruct (lookup_lt_is_Some_2 (allVaults f) (N.to_nat index)) as [a Ha];
      [lia|].
    exists a. unfold vault_at. rewrite Ha. split; [reflexivity|].
    split; [reflexivity|]. intros Hfit.
    rewrite (getVaultsPaginated_slice f index 1) by (right; exact Hfit).
    rewrite (drop_S _ _ _ Ha). reflexivity.
  - intros Hout. rewrite decide_False by lia. reflexivity.
Qed.

Lemma getVault_in_bounds_witness :
  getVault Scenario.factory5 4 = Ok 204 /\
  getVault Scenario.factory5 5 = Err (ErrorString "Index out of bounds").
Proof.
  destruct (getVault_in_bounds Scenario.factory5 4) as [Hin _].
  destruct (getVault_in_bounds Scenario.factory5 5) as [_ Hout].
  destruct Hin as (a & Hget & Hlook & _); [vm_compute; reflexivity|].
  vm_compute in Hlook. injection Hlook as <-.
  split; [exact Hget|]. apply Hout. vm_compute. discriminate.
Defined.

End FactoryRegistry.

Section FactoryLifecycle.
Import Scenario MicroDcaVault VaultFactory.

Lemma step_track (f f' : Factory) :
  step f f' -> exists a : N, f' = track f a.
Proof.
  intros [f0 f1 world world' sender now new base quote i m q fe k vault events Hc
         | f0 f1 world world' sender now new src vault events Hc].
  - unfold createVault in Hc. inv_Ok Hc. injection Hc as _ <- _ _. eauto.
  - unfold copyVault in Hc. inv_Ok Hc.
    destruct (world !! src) as [s0|]; [|discriminate].
    inv_Ok Hc. injection Hc as _ <- _ _. eauto.
Qed.

(** X5: the registry stays consistent: from the constructor on, through any
    number of [createVault] and [copyVault] calls, an address is listed in
    [allVaults] exactly when [isVault] is true for it, and the router is the
    non-zero address the factory was deployed with. *)
Theorem registry_consistent (_router : N) (f0 f : Factory) :
  VaultFactory.constructor _router = Ok f0 ->
  rtc step f0 f ->
  factory_router f = _router /\ _router <> 0 /\
  forall a : N, a ∈ allVaults f <-> is_vault f a = true.
Proof.
  intros Hc Hsteps.
  assert (H0 : factory_router f0 = _router /\ _router <> 0 /\
               forall a : N, a ∈ allVaults f0 <-> is_vault f0 a = true).
  { unfold VaultFactory.constructor in Hc. inv_Ok Hc. injection Hc as <-.
    split; [reflexivity|]. split; [assumption|].
    intros a. unfold is_vault; simpl. rewrite lookup_empty. simpl.
    split; [intros Hin; inversion Hin | discriminate]. }
  clear Hc. induction Hsteps as [f|f f1 f2 Hstep _ IH]; [exact H0|].
  apply IH. destruct H0 as (Hr & Hnz & Hreg).
  apply step_track in Hstep as [new ->].
  split; [exact Hr|]. split; [exact Hnz|].
  intros a. unfold is_vault, track; simpl.
  rewrite elem_of_app, list_elem_of_singleton, lookup_insert.
  case_decide as Heq.
  - subst a. simpl. split; [reflexivity | right; reflexivity].
  - specialize (Hreg a). unfold is_vault in Hreg. rewrite <- Hreg.
    split; [intros [Hin | ->]; [exact Hin | contradiction] | left; assumption].
Qed.

Lemma registry_consistent_witness :
  VAULT ∈ allVaults (track factory0 VAULT) <->
  is_vault (track factory0 VAULT) VAULT = true.
Proof.
  apply (registry_consistent ROUTER factory0 (track factory0 VAULT)).
  - reflexivity.
  - eapply rtc_l; [|apply rtc_refl].
    apply (step_createVault factory0 (track factory0 VAULT) ∅
             (<[VAULT := vault0]> ∅) OWNER T0 VAULT BASE QUOTE 60 50 (100 * e18)
             10 KEEPER VAULT [VaultCreated VAULT BASE QUOTE OWNER]).
    vm_compute. reflexivity.
Defined.

(** X6: the list of vaults only grows at its end: after any number of
    [createVault] and [copyVault] calls the earlier list is a prefix of the
    later one, so the count never shrinks and [getVault] at an index that was
    valid still returns the same address. *)
Theorem allVaults_append_only (f f' : Factory) :
  rtc step f f' ->
  allVaults f `prefix_of` allVaults f' /\
  getVaultCount f <= getVaultCount f' /\
  forall index a : N, getVault f index = Ok a -> getVault f' index = Ok a.
Proof.
  intros Hsteps.
  assert (Hpre : allVaults f `prefix_of` allVaults f').
  { induction Hsteps as [f|f f1 f2 Hstep _ IH]; [reflexivity|].
    apply step_track in Hstep as [new ->]. etransitivity; [|exact IH].
    simpl. apply prefix_app_r. reflexivity. }
  split; [exact Hpre|].
  assert (Hlen : getVaultCount f <= getVaultCount f').
  { unfold getVaultCount. apply prefix_length in Hpre. lia. }
  split; [exact Hlen|].
  intros index a Hget. unfold getVault, vault_at, getVaultCount in *.
  destruct (decide (index < N.of_nat (length (allVaults f)))); [|discriminate].
  destruct (allVaults f !! N.to_nat index) as [a'|] eqn:Hlook; [|discriminate].
  injection Hget as ->.
  rewrite decide_True by lia.
  rewrite (prefix_lookup_Some _ _ _ _ Hlook Hpre). reflexivity.
Qed.

Lemma allVaults_append_only_witness :
  getVaultCount factory0 <= getVaultCount (track factory0 VAULT).
Proof.
  apply (allVaults_append_only factory0 (track factory0 VAULT)).
  eapply rtc_l; [|apply rtc_refl].
  apply (step_createVault factory0 (track factory0 VAULT) ∅
           (<[VAULT := vault0]> ∅) OWNER T0 VAULT BASE QUOTE 60 50 (100 * e18)
           10 KEEPER VAULT [VaultCreated VAULT BASE QUOTE OWNER]).
  vm_compute. reflexivity.
Defined.

(** X7: a copy takes the source's interval, slippage bound, cap, fee and
    tokens, and nothing else: it is owned by the caller, has no keeper, is
    not paused whatever the source's pause flag, starts its interval at the
    time of the copy with empty counters and no shares, uses the factory's
    router, and is registered; every other vault, the source included, is
    left as it was. *)
Theorem copyVault_independent (f f' : Factory) (world world' : gmap N Vault)
    (sender now new src vault : N) (events : list Event) :
  copyVault f world sender now new src = Ok (vault, f', world', events) ->
  exists s c : Vault,
    world !! src = Some s /\ world' !! vault = Some c /\ vault = new /\
    getConfig c = (intervalSeconds s, maxSlippageBps s, perCycleQuoteCap s,
                   feeBps s, 0, false) /\
    baseToken c = baseToken s /\ quoteToken c = quoteToken s /\
    owner c = sender /\ router c = factory_router f /\ self c = new /\
    lastExec c = now /\ totalFilledQuote c = 0 /\ totalFilledBase c = 0 /\
    totalSupply c = 0 /\ shares c = ∅ /\
    f' = track f new /\ is_vault f' new = true /\
    events = [VaultCopied src new sender] /\
    forall a : N, a <> new -> world' !! a = world !! a.
Proof.
  unfold copyVault. intros Hc. inv_Ok Hc.
  destruct (world !! src) as [s|] eqn:Hs; [|discriminate].
  inv_Ok Hc. unfold MicroDcaVault.constructor in Ha. inv_Ok Ha.
  injection Ha as <-. injection Hc as <- <- <- <-.
  exists s. eexists. split; [reflexivity|].
  split; [apply lookup_insert_eq|].
  repeat (split; [reflexivity|]).
  split; [unfold is_vault; simpl; by rewrite lookup_insert_eq|].
  split; [reflexivity|].
  intros a Hne. by rewrite lookup_insert_ne.
Qed.

Lemma copyVault_independent_witness :
  exists c : Vault,
    getConfig c = (60, 50, 100 * e18, 10, 0, false) /\ owner c = USER.
Proof.
  destruct (copyVault factory0 (<[VAULT := paused_keeper_vault]> ∅) USER
              (T0 + 5) 201 VAULT)
    as [[[[vault f'] world'] events]|e] eqn:Hcopy;
    [|vm_compute in Hcopy; discriminate Hcopy].
  destruct (copyVault_independent _ _ _ _ _ _ _ _ _ _ Hcopy)
    as (s & c & Hs & _ & _ & Hcfg & _ & _ & Hown & _).
  vm_compute in Hs. injection Hs as <-.
  exists c. split; [exact Hcfg | exact Hown].
Defined.

(** X8: [copyVault] validates nothing but the addresses: any vault with
    non-zero tokens is copied by a factory with a non-zero router, also when
    its interval is zero or its slippage bound or fee exceeds 10000 bps;
    [createVault] refuses those very parameters with [InvalidParams]. *)
Theorem copyVault_skips_validation (f : Factory) (world : gmap N Vault)
    (sender now new src : N) (s : Vault) :
  src <> 0 -> world !! src = Some s ->
  factory_router f <> 0 -> baseToken s <> 0 -> quoteToken s <> 0 ->
  is_Ok (copyVault f world sender now new src) /\
  (baseToken s = quoteToken s \/ intervalSeconds s = 0 \/
   maxSlippageBps s > 10000 \/ feeBps s > 10000 ->
   forall _keeper : N,
     createVault f world sender now new (baseToken s) (quoteToken s)
       (intervalSeconds s) (maxSlippageBps s) (perCycleQuoteCap s) (feeBps s)
       _keeper = Err InvalidParams).
Proof.
  intros Hsrc Hs Hr Hb Hq. split.
  - unfold copyVault, is_Ok. rewrite decide_False by exact Hsrc. rewrite Hs.
    simpl. unfold MicroDcaVault.constructor.
    rewrite decide_False by tauto. simpl. eauto.
  - intros Hbad _keeper. unfold createVault.
    rewrite decide_False by tauto.
    destruct (decide (baseToken s = quoteToken s)); [reflexivity|].
    rewrite decide_True by tauto. reflexivity.
Qed.

Lemma copyVault_skips_validation_witness :
  is_Ok (copyVault factory0 (<[VAULT := odd_vault]> ∅) USER (T0 + 5) 201 VAULT) /\
  createVault factory0 (<[VAULT := odd_vault]> ∅) USER (T0 + 5) 201 BASE QUOTE
    0 20000 (100 * e18) 20000 0 = Err InvalidParams.
Proof.
  destruct (copyVault_skips_validation factory0 (<[VAULT := odd_vault]> ∅) USER
              (T0 + 5) 201 VAULT odd_vault) as [Hcopy Hcreate];
    [vm_compute; discriminate | vm_compute; reflexivity | vm_compute; discriminate
    | vm_compute; discriminate | vm_compute; discriminate |].
  split; [exact Hcopy|].
  apply (Hcreate ltac:(right; left; reflexivity) 0).
Defined.

End FactoryLifecycle.

(** ** More on the cycle engine *)

Section CycleEngineMore.
Context {R : IRouter}.
Import MicroDcaVault.

(** Past the pause, guard, keeper, interval, cap and balance checks a cycle
    is the swap followed by the slippage check and the settlement. *)
Lemma executeCycle_past_gates (v : Vault) (L : Ledger)
    (sender now quoteAmount minOut beneficiary : N) :
  paused v = false -> entered v = false ->
  (keeper v = 0 \/ sender = keeper v) ->
  lastExec v + intervalSeconds v <= now ->
  quoteAmount <= perCycleQuoteCap v ->
  0 < swapped v L quoteAmount ->
  now + 300 <= MAX_UINT256 ->
  executeCycle v L sender now quoteAmount minOut beneficiary
  = ('(amounts, L3) ← swapExactTokensForTokens (router v) (self v) now
                        (swapped v L quoteAmount) minOut
                        [quoteToken v; baseToken v] (self v) (now + 300)
                        (approved v L (swapped v L quoteAmount));
     baseOut ← last_amount amounts;
     if decide (baseOut >= minOut) then
       '(fee, baseOut, L4) ← deduct_fee v L3 baseOut;
       filledQuote ← checked_add (totalFilledQuote v) (swapped v L quoteAmount);
       filledBase ← checked_add (totalFilledBase v) baseOut;
       Ok (baseOut, with_fill v now filledQuote filledBase, L4,
           [Fill now (swapped v L quoteAmount) baseOut])
     else Err (ErrorString "Slippage")).
Proof.
  intros Hp He Hauth Hlate Hcap Hpos Hdl.
  assert (Hna : ~ (keeper v <> 0 /\ sender <> keeper v)) by tauto.
  unfold executeCycle. rewrite Hp, He.
  rewrite (decide_False (P := _ /\ _)) by exact Hna.
  set (avail := MockERC20.balanceOf L (quoteToken v) (self v)) in *.
  assert (Hm : (if decide (quoteAmount > avail) then avail else quoteAmount)
               = swapped v L quoteAmount)
    by (unfold swapped; fold avail; case_decide; lia).
  rewrite Hm. clear Hm.
  rewrite (checked_add_in_range (lastExec v)) by lia. simpl.
  settle_decide.
  rewrite (checked_add_in_range now) by assumption. simpl.
  reflexivity.
Qed.

(** X9: once the pause, keeper and interval checks have passed, an amount
    above [perCycleQuoteCap] fails with [CapExceeded] whatever the vault
    holds, and an amount within the cap fails with "NoQuote" when it is zero
    or the vault holds no quote tokens. *)
Theorem executeCycle_cap (v : Vault) (L : Ledger)
    (sender now quoteAmount minOut beneficiary : N) :
  paused v = false -> entered v = false ->
  (keeper v = 0 \/ sender = keeper v) ->
  lastExec v + intervalSeconds v <= now -> now <= MAX_UINT256 ->
  (quoteAmount > perCycleQuoteCap v ->
   executeCycle v L sender now quoteAmount minOut beneficiary = Err CapExceeded)
  /\
  (quoteAmount <= perCycleQuoteCap v ->
   quoteAmount = 0 \/ MockERC20.balanceOf L (quoteToken v) (self v) = 0 ->
   executeCycle v L sender now quoteAmount minOut beneficiary
     = Err (ErrorString "NoQuote")).
Proof.
  intros Hp He Hauth Hlate Hnow.
  assert (Hna : ~ (keeper v <> 0 /\ sender <> keeper v)) by tauto.
  split.
  - intros Hcap. unfold executeCycle. rewrite Hp, He.
    rewrite (decide_False (P := _ /\ _)) by exact Hna.
    rewrite (checked_add_in_range (lastExec v)) by lia. simpl.
    rewrite (decide_False (P := now < _)) by lia.
    rewrite (decide_True (P := quoteAmount > _)) by exact Hcap. reflexivity.
  - intros Hcap Hzero. unfold executeCycle. rewrite Hp, He.
    rewrite (decide_False (P := _ /\ _)) by exact Hna.
    rewrite (checked_add_in_range (lastExec v)) by lia. simpl.
    rewrite (decide_False (P := now < _)) by lia.
    rewrite (decide_False (P := quoteAmount > perCycleQuoteCap v)) by lia.
    set (avail := MockERC20.balanceOf L (quoteToken v) (self v)) in *.
    destruct (decide (quoteAmount > avail)) as [Hgt|Hle].
    + rewrite (decide_False (P := avail > 0)) by lia. reflexivity.
    + rewrite (decide_False (P := quoteAmount > 0)) by lia. reflexivity.
Qed.

(** X10: a failure of the router is passed on as it is; a router that
    returns an empty array makes the cycle panic; an output below the
    caller's [minOut] fails with "Slippage".  Nothing else stands between the
    checks and the settlement. *)
Theorem executeCycle_router_failures (v : Vault) (L : Ledger)
    (sender now quoteAmount minOut beneficiary : N) :
  paused v = false -> entered v = false ->
  (keeper v = 0 \/ sender = keeper v) ->
  lastExec v + intervalSeconds v <= now ->
  quoteAmount <= perCycleQuoteCap v ->
  0 < swapped v L quoteAmount ->
  now + 300 <= MAX_UINT256 ->
  match swapExactTokensForTokens (router v) (self v) now
          (swapped v L quoteAmount) minOut [quoteToken v; baseToken v] (self v)
          (now + 300) (approved v L (swapped v L quoteAmount)) with
  | Err e =>
      executeCycle v L sender now quoteAmount minOut beneficiary = Err e
  | Ok (amounts, L3) =>
      match last amounts with
      | None =>
          executeCycle v L sender now quoteAmount minOut beneficiary
            = Err (Panic 17)
      | Some routerBaseOut =>
          routerBaseOut < minOut ->
          executeCycle v L sender now quoteAmount minOut beneficiary
            = Err (ErrorString "Slippage")
      end
  end.
Proof.
  intros Hp He Hauth Hlate Hcap Hpos Hdl.
  rewrite (executeCycle_past_gates v L sender now quoteAmount minOut beneficiary)
    by assumption.
  destruct (swapExactTokensForTokens _ _ _ _ _ _ _ _ _) as [[amounts L3]|e];
    simpl; [|reflexivity].
  unfold last_amount. destruct (last amounts) as [b|]; simpl; [|reflexivity].
  intros Hlow. rewrite decide_False by lia. reflexivity.
Qed.

(** X11: a successful cycle writes [lastExec] and the two counters and
    nothing else: configuration, owner, tokens, router and shares are as
    before.  [lastExec] moves forward to the block time, [totalFilledQuote]
    grows by the amount swapped, which is positive and at most the requested
    amount, the cap and the vault's quote balance, and [totalFilledBase]
    grows by the amount returned. *)
Theorem executeCycle_frame (v v' : Vault) (L L' : Ledger)
    (sender now quoteAmount minOut beneficiary ret : N) (events : list Event) :
  executeCycle v L sender now quoteAmount minOut beneficiary
    = Ok (ret, v', L', events) ->
  getConfig v' = getConfig v /\ owner v' = owner v /\ self v' = self v /\
  router v' = router v /\ baseToken v' = baseToken v /\
  quoteToken v' = quoteToken v /\ shares v' = shares v /\
  totalSupply v' = totalSupply v /\ entered v' = entered v /\
  lastExec v <= lastExec v' /\ lastExec v' = now /\
  totalFilledQuote v' = totalFilledQuote v + swapped v L quoteAmount /\
  totalFilledBase v' = totalFilledBase v + ret /\
  0 < swapped v L quoteAmount /\
  swapped v L quoteAmount <= quoteAmount /\
  swapped v L quoteAmount <= perCycleQuoteCap v /\
  swapped v L quoteAmount <= MockERC20.balanceOf L (quoteToken v) (self v).
Proof.
  intros Hok.
  apply executeCycle_Ok_inv in Hok
    as (_ & _ & _ & Hlate & Hcap & Hpos & amounts & L3 & b & fee & _ & _ & _ & _
        & -> & _).
  unfold swapped in *. simpl.
  repeat (split; [first [reflexivity | lia]|]). lia.
Qed.

(** A call before the interval has elapsed, by a caller the vault admits. *)
Lemma executeCycle_before_interval (v : Vault) (L : Ledger)
    (sender now quoteAmount minOut beneficiary : N) :
  paused v = false -> entered v = false ->
  (keeper v = 0 \/ sender = keeper v) ->
  lastExec v + intervalSeconds v <= MAX_UINT256 ->
  now < lastExec v + intervalSeconds v ->
  executeCycle v L sender now quoteAmount minOut beneficiary
    = Err IntervalNotElapsed.
Proof.
  intros Hp He Hauth Hsum Hearly.
  assert (Hna : ~ (keeper v <> 0 /\ sender <> keeper v)) by tauto.
  unfold executeCycle. rewrite Hp, He.
  rewrite (decide_False (P := _ /\ _)) by exact Hna.
  rewrite (checked_add_in_range (lastExec v)) by assumption. simpl.
  rewrite (decide_True (P := now < _)) by exact Hearly. reflexivity.
Qed.

(** X12: at most one cycle per interval: after a cycle that succeeded at
    time [now], every call before [now + intervalSeconds] fails, whoever
    calls and whatever the ledgers hold by then, with [IntervalNotElapsed]
    for a caller the vault admits; and [nextExecTime] is
    [now + intervalSeconds]. *)
Theorem executeCycle_once_per_interval (v v' : Vault) (L L' : Ledger)
    (sender now quoteAmount minOut beneficiary ret : N) (events : list Event) :
  executeCycle v L sender now quoteAmount minOut beneficiary
    = Ok (ret, v', L', events) ->
  forall (L2 : Ledger) (sender2 now2 quoteAmount2 minOut2 beneficiary2 : N),
    now2 < now + intervalSeconds v ->
    is_Err (executeCycle v' L2 sender2 now2 quoteAmount2 minOut2 beneficiary2)
    /\
    (now + intervalSeconds v <= MAX_UINT256 ->
     nextExecTime v' = Ok (now + intervalSeconds v) /\
     ((keeper v = 0 \/ sender2 = keeper v) ->
      executeCycle v' L2 sender2 now2 quoteAmount2 minOut2 beneficiary2
        = Err IntervalNotElapsed)).
Proof.
  intros Hok L2 sender2 now2 quoteAmount2 minOut2 beneficiary2 Hearly.
  apply executeCycle_Ok_inv in Hok
    as (Hp & He & _ & _ & _ & _ & amounts & L3 & b & fee & _ & _ & _ & _ & -> & _).
  split.
  - apply executeCycle_early_fails. simpl. exact Hearly.
  - intros Hsum. split.
    + unfold nextExecTime. simpl. apply checked_add_in_range. exact Hsum.
    + intros Hauth. apply executeCycle_before_interval; simpl; assumption.
Qed.

End CycleEngineMore.

Section ConfigurationMore.
Context {R : IRouter}.
Import MicroDcaVault.

(** X13: [setConfig] has no partial update and keeps no history: called by
    the owner with the six values [getConfig] reports it leaves the vault
    exactly as it was, and of two calls in a row only the second counts. *)
Theorem setConfig_round_trip (v : Vault) :
  setConfig v (owner v) (intervalSeconds v) (maxSlippageBps v)
    (perCycleQuoteCap v) (feeBps v) (keeper v) (paused v)
    = Ok (v, [ConfigUpdated (intervalSeconds v) (maxSlippageBps v)
                (perCycleQuoteCap v) (feeBps v) (keeper v) (paused v)])
  /\
  forall (i1 m1 q1 f1 k1 : N) (p1 : bool) (i2 m2 q2 f2 k2 : N) (p2 : bool)
         (v1 : Vault) (events : list Event),
    setConfig v (owner v) i1 m1 q1 f1 k1 p1 = Ok (v1, events) ->
    setConfig v1 (owner v) i2 m2 q2 f2 k2 p2
      = setConfig v (owner v) i2 m2 q2 f2 k2 p2.
Proof.
  split.
  - unfold setConfig. rewrite decide_True by reflexivity.
    destruct v; reflexivity.
  - intros i1 m1 q1 f1 k1 p1 i2 m2 q2 f2 k2 p2 v1 events Hset.
    unfold setConfig in *. rewrite decide_True in Hset by reflexivity.
    injection Hset as <- _. simpl. rewrite !decide_True by reflexivity.
    reflexivity.
Qed.

(** X14: what a [setConfig] that succeeded means for the cycles after it: it
    came from the owner and touched neither [lastExec] nor the counters nor
    the shares, so the running interval is re-timed from the old [lastExec];
    with [paused] set every cycle fails with [Paused]; with a keeper set and
    [paused] clear a caller other than the keeper fails with [NotKeeper];
    and every cycle that succeeds afterwards found the vault unpaused and was
    called by the keeper if one is set. *)
Theorem setConfig_takes_effect (v v' : Vault) (sender : N)
    (i m q f k : N) (p : bool) (events : list Event) :
  setConfig v sender i m q f k p = Ok (v', events) ->
  sender = owner v /\ owner v' = owner v /\
  getConfig v' = (i, m, q, f, k, p) /\
  lastExec v' = lastExec v /\ totalFilledQuote v' = totalFilledQuote v /\
  totalFilledBase v' = totalFilledBase v /\ shares v' = shares v /\
  totalSupply v' = totalSupply v /\
  nextExecTime v' = checked_add (lastExec v) i /\
  forall (L : Ledger) (caller now quoteAmount minOut beneficiary : N),
    (p = true ->
     executeCycle v' L caller now quoteAmount minOut beneficiary = Err Paused)
    /\
    (p = false -> entered v = false -> k <> 0 -> caller <> k ->
     executeCycle v' L caller now quoteAmount minOut beneficiary = Err NotKeeper)
    /\
    (is_Ok (executeCycle v' L caller now quoteAmount minOut beneficiary) ->
     p = false /\ (k = 0 \/ caller = k)).
Proof.
  unfold setConfig. intros Hset.
  destruct (decide (sender = owner v)) as [->|]; [|discriminate].
  injection Hset as <- _.
  repeat (split; [reflexivity|]).
  intros L caller now quoteAmount minOut beneficiary. split; [|split].
  - intros ->. reflexivity.
  - intros -> He Hk Hcaller. unfold executeCycle. simpl. rewrite He.
    rewrite decide_True by (split; assumption). reflexivity.
  - intros [[[[ret v2] L2] ev2] Hok].
    apply executeCycle_Ok_inv in Hok as (Hp & _ & Hauth & _).
    simpl in Hp, Hauth. split; assumption.
Qed.

End ConfigurationMore.

Section CycleEngineMoreExamples.
Import Scenario MicroDcaVault.

Lemma executeCycle_cap_witness :
  executeCycle (R := mock) vault0 ledger0 USER (T0 + 60) (100 * e18 + 1)
    (50 * e18) USER = Err CapExceeded /\
  executeCycle (R := mock) vault0 (mkLedger ∅ ∅) USER (T0 + 60) (50 * e18)
    (50 * e18) USER = Err (ErrorString "NoQuote").
Proof.
  split.
  - apply (executeCycle_cap (R := mock) vault0 ledger0 USER (T0 + 60)
             (100 * e18 + 1) (50 * e18) USER);
      first [reflexivity | left; reflexivity | vm_compute; discriminate].
  - destruct (executeCycle_cap (R := mock) vault0 (mkLedger ∅ ∅) USER (T0 + 60)
                (50 * e18) (50 * e18) USER) as [_ Hnone];
      [reflexivity | reflexivity | left; reflexivity | vm_compute; discriminate
      | vm_compute; discriminate |].
    apply Hnone; [vm_compute; discriminate | right; reflexivity].
Defined.

Lemma executeCycle_router_failures_witness :
  executeCycle (R := MockRouter.router e18 1000) vault0 ledger0 USER (T0 + 60)
    (50 * e18) (50 * e18) USER = Err (ErrorString "INSUFFICIENT_OUTPUT").
Proof.
  exact (executeCycle_router_failures (R := MockRouter.router e18 1000) vault0
           ledger0 USER (T0 + 60) (50 * e18) (50 * e18) USER
           eq_refl eq_refl (or_introl eq_refl)
           ltac:(vm_compute; discriminate) ltac:(vm_compute; discriminate)
           ltac:(vm_compute; reflexivity) ltac:(vm_compute; discriminate)).
Defined.

Lemma executeCycle_frame_witness :
  exists v' : Vault,
    getConfig v' = getConfig vault0 /\
    totalFilledQuote v' = totalFilledQuote vault0 + 50 * e18.
Proof.
  destruct (executeCycle (R := mock) vault0 ledger0 USER (T0 + 60) (50 * e18)
              (50 * e18) USER) as [[[[ret v'] L'] events]|e] eqn:Hrun;
    [|vm_compute in Hrun; discriminate Hrun].
  destruct (executeCycle_frame (R := mock) _ _ _ _ _ _ _ _ _ _ _ Hrun)
    as (Hcfg & _ & _ & _ & _ & _ & _ & _ & _ & _ & _ & Hq & _).
  exists v'. split; [exact Hcfg | exact Hq].
Defined.

Lemma executeCycle_once_per_interval_witness :
  executeCycle (R := mock)
    (with_fill vault0 (T0 + 60) (50 * e18) (4995 * e18 / 100)) ledger_swapped
    USER (T0 + 119) (50 * e18) 0 USER = Err IntervalNotElapsed.
Proof.
  destruct (executeCycle (R := mock) vault0 ledger0 USER (T0 + 60) (50 * e18)
              (50 * e18) USER) as [[[[ret v'] L'] events]|e] eqn:Hrun;
    [|vm_compute in Hrun; discriminate Hrun].
  destruct (executeCycle_once_per_interval (R := mock) _ _ _ _ _ _ _ _ _ _ _ Hrun
              ledger_swapped USER (T0 + 119) (50 * e18) 0 USER
              ltac:(vm_compute; reflexivity)) as [_ Hnext].
  destruct Hnext as [_ Hgate]; [vm_compute; discriminate|].
  assert (Hv : v' = with_fill vault0 (T0 + 60) (50 * e18) (4995 * e18 / 100))
    by (vm_compute in Hrun; injection Hrun as _ <- _ _; reflexivity).
  rewrite <- Hv. apply Hgate. left. reflexivity.
Defined.

Lemma setConfig_takes_effect_witness :
  executeCycle (R := mock) paused_keeper_vault ledger0 KEEPER (T0 + 60)
    (50 * e18) (50 * e18) USER = Err Paused.
Proof.
  destruct (setConfig_takes_effect (R := mock) vault0 paused_keeper_vault OWNER
              60 50 (100 * e18) 10 KEEPER true
              [ConfigUpdated 60 50 (100 * e18) 10 KEEPER true] eq_refl)
    as (_ & _ & _ & _ & _ & _ & _ & _ & _ & Hcycles).
  destruct (Hcycles ledger0 KEEPER (T0 + 60) (50 * e18) (50 * e18) USER)
    as [Hpaused _].
  apply Hpaused. reflexivity.
Defined.

End CycleEngineMoreExamples.

Lemma setConfig_round_trip_witness :
  MicroDcaVault.setConfig Scenario.keeper_vault Scenario.OWNER 60 50
    (100 * Scenario.e18) 10 Scenario.KEEPER true
  = MicroDcaVault.setConfig Scenario.vault0 Scenario.OWNER 60 50
      (100 * Scenario.e18) 10 Scenario.KEEPER true.
Proof.
  destruct (setConfig_round_trip Scenario.vault0) as [_ Hlast].
  exact (Hlast 60 50 (100 * Scenario.e18) 10 Scenario.KEEPER false
           60 50 (100 * Scenario.e18) 10 Scenario.KEEPER true
           Scenario.keeper_vault
           [ConfigUpdated 60 50 (100 * Scenario.e18) 10 Scenario.KEEPER false]
           eq_refl).
Defined.

(** ** The mock token and the mock router *)

Section MockFacts.
Import MockERC20.

Lemma circulating_set_balance (L : Ledger) (t h a t' : N) :
  circulating (set_balance L t h a) t'
    + (if decide (t = t') then balanceOf L t h else 0)
  = circulating L t' + (if decide (t = t') then a else 0).
Proof.
  unfold circulating, set_balance, balanceOf; simpl.
  set (f := fun (key : N * N) (amount total : N) =>
              if decide (key.1 = t') then amount + total else total).
  assert (Hcomm : forall (j1 j2 : N * N) (z1 z2 y : N),
            f j1 z1 (f j2 z2 y) = f j2 z2 (f j1 z1 y))
    by (intros; unfold f; repeat case_decide; lia).
  destruct (balances L !! (t, h)) as [old|] eqn:Hold; simpl.
  - rewrite (map_fold_delete_L f 0 (t, h) old (balances L))
      by (intros; apply Hcomm || assumption).
    rewrite <- (insert_delete_eq (balances L)).
    rewrite (map_fold_insert_L f 0 (t, h) a)
      by (intros; apply Hcomm || apply lookup_delete_eq).
    unfold f at 1 3; simpl. repeat case_decide; lia.
  - rewrite (map_fold_insert_L f 0 (t, h) a)
      by (intros; apply Hcomm || assumption).
    unfold f at 1; simpl. repeat case_decide; lia.
Qed.

(** X15: the mock token conserves its supply: [transfer] and [transferFrom]
    leave the sum of all balances of every token as it was, a transfer to
    oneself included. *)
Theorem MockERC20_conservation :
  (forall (L L' : Ledger) (t sender to amount t' : N),
     transfer L t sender to amount = Ok L' ->
     circulating L' t' = circulating L t')
  /\
  (forall (L L' : Ledger) (t sender from to amount t' : N),
     transferFrom L t sender from to amount = Ok L' ->
     circulating L' t' = circulating L t').
Proof.
  split.
  - intros L L' t sender to amount t' Ht. unfold transfer in Ht. inv_Ok Ht.
    apply checked_sub_Ok in Ha as [-> Hle]. apply checked_add_Ok in Ha0 as [-> _].
    injection Ht as <-.
    pose proof (circulating_set_balance L t sender
                  (balanceOf L t sender - amount) t') as H1.
    pose proof (circulating_set_balance
                  (set_balance L t sender (balanceOf L t sender - amount)) t to
                  (balanceOf (set_balance L t sender (balanceOf L t sender - amount))
                     t to + amount) t') as H2.
    case_decide; lia.
  - intros L L' t sender from to amount t' Ht. unfold transferFrom in Ht.
    inv_Ok Ht.
    apply checked_sub_Ok in Ha0 as [-> Hle]. apply checked_add_Ok in Ha1 as [-> _].
    injection Ht as <-.
    set (L1 := set_allowance L t from sender a) in *.
    pose proof (circulating_set_balance L1 t from (balanceOf L1 t from - amount) t')
      as H1.
    pose proof (circulating_set_balance
                  (set_balance L1 t from (balanceOf L1 t from - amount)) t to
                  (balanceOf (set_balance L1 t from (balanceOf L1 t from - amount))
                     t to + amount) t') as H2.
    change (circulating L1 t') with (circulating L t') in H1.
    case_decide; lia.
Qed.

Lemma MockERC20_conservation_witness :
  exists L' : Ledger,
    transfer Scenario.ledger0 Scenario.BASE Scenario.ROUTER Scenario.VAULT 7
      = Ok L' /\
    circulating L' Scenario.BASE = 10000 * Scenario.e18.
Proof.
  destruct (transfer Scenario.ledger0 Scenario.BASE Scenario.ROUTER
              Scenario.VAULT 7) as [L'|e] eqn:Ht;
    [|vm_compute in Ht; discriminate Ht].
  exists L'. split; [reflexivity|].
  destruct MockERC20_conservation as [Hconserved _].
  rewrite (Hconserved _ _ _ _ _ _ Scenario.BASE Ht).
  vm_compute. reflexivity.
Defined.

(** X16: what a swap of the mock router that succeeded did: the deadline
    had not passed; the output is the input at [rate] less the simulated
    slippage, and at least [amountOutMin]; the caller had approved the router
    for the input and the approval shrank by it; the input moved from the
    caller to the router and the output from the router to the recipient. *)
Theorem MockRouter_swap_settles (rate slippageSimulation : N)
    (this sender now amountIn amountOutMin tokenIn tokenOut to deadline : N)
    (L L' : Ledger) (amounts : list N) :
  MockRouter.swap rate slippageSimulation this sender now amountIn amountOutMin
    [tokenIn; tokenOut] to deadline L = Ok (amounts, L') ->
  let gross := amountIn * rate / 10 ^ 18 in
  let amountOut := gross - gross * slippageSimulation / 10000 in
  now <= deadline /\
  amounts = [amountIn; amountOut] /\
  gross * slippageSimulation / 10000 <= gross /\
  amountOutMin <= amountOut /\
  amountIn <= allowance L tokenIn sender this /\
  allowance L' tokenIn sender this = allowance L tokenIn sender this - amountIn /\
  (tokenIn <> tokenOut -> sender <> this -> to <> this ->
   balanceOf L' tokenIn sender + amountIn = balanceOf L tokenIn sender /\
   balanceOf L' tokenIn this = balanceOf L tokenIn this + amountIn /\
   balanceOf L' tokenOut this + amountOut = balanceOf L tokenOut this /\
   balanceOf L' tokenOut to = balanceOf L tokenOut to + amountOut).
Proof.
  unfold MockRouter.swap. intros Hs. inv_Ok Hs. injection Hs as <- <-.
  apply checked_mul_Ok in Ha as [-> _]. apply checked_mul_Ok in Ha0 as [-> _].
  apply checked_sub_Ok in Ha1 as [-> Hslip]. cbv zeta.
  split; [lia|]. split; [reflexivity|]. split; [exact Hslip|]. split; [lia|].
  split; [exact (transferFrom_allowance _ _ _ _ _ _ _ Ha2)|].
  split.
  { rewrite (transfer_allowance _ _ _ _ _ _ tokenIn sender this Ha3).
    rewrite (allowance_transferFrom _ _ _ _ _ _ _ tokenIn sender this Ha2).
    rewrite decide_True by reflexivity. reflexivity. }
  intros Htok Hsender Hto.
  pose proof (transferFrom_balanceOf _ _ _ _ _ _ _ tokenIn sender Ha2) as [Hhas Hi1].
  pose proof (transferFrom_balanceOf _ _ _ _ _ _ _ tokenIn this Ha2) as [_ Hi2].
  pose proof (transferFrom_balanceOf _ _ _ _ _ _ _ tokenOut this Ha2) as [_ Ho1].
  pose proof (transferFrom_balanceOf _ _ _ _ _ _ _ tokenOut to Ha2) as [_ Ho2].
  pose proof (transfer_balanceOf _ _ _ _ _ _ tokenIn sender Ha3) as [Hhas' Hi3].
  pose proof (transfer_balanceOf _ _ _ _ _ _ tokenIn this Ha3) as [_ Hi4].
  pose proof (transfer_balanceOf _ _ _ _ _ _ tokenOut this Ha3) as [_ Ho3].
  pose proof (transfer_balanceOf _ _ _ _ _ _ tokenOut to Ha3) as [_ Ho4].
  repeat match goal with
  | H : context [decide ?P] |- _ =>
      first [ rewrite (decide_True (P := P)) in H by congruence
            | rewrite (decide_False (P := P)) in H by congruence ]
  end.
  repeat split; lia.
Qed.

Lemma MockRouter_swap_settles_witness :
  exists (amounts : list N) (L' : Ledger),
    MockRouter.swap Scenario.e18 1000 Scenario.ROUTER Scenario.VAULT
      (Scenario.T0 + 60) (50 * Scenario.e18) 0 [Scenario.QUOTE; Scenario.BASE]
      Scenario.VAULT (Scenario.T0 + 360)
      (MicroDcaVault.approved Scenario.vault0 Scenario.ledger0 (50 * Scenario.e18))
      = Ok (amounts, L') /\
    amounts = [50 * Scenario.e18; 45 * Scenario.e18].
Proof.
  destruct (MockRouter.swap Scenario.e18 1000 Scenario.ROUTER Scenario.VAULT
              (Scenario.T0 + 60) (50 * Scenario.e18) 0
              [Scenario.QUOTE; Scenario.BASE] Scenario.VAULT (Scenario.T0 + 360)
              (MicroDcaVault.approved Scenario.vault0 Scenario.ledger0
                 (50 * Scenario.e18))) as [[amounts L']|e] eqn:Hs;
    [|vm_compute in Hs; discriminate Hs].
  exists amounts, L'. split; [reflexivity|].
  destruct (MockRouter_swap_settles _ _ _ _ _ _ _ _ _ _ _ _ _ _ Hs)
    as (_ & Hamounts & _).
  rewrite Hamounts. vm_compute. reflexivity.
Defined.

End MockFacts.

(** ** A cycle against the mock router, end to end *)

Section CycleAgainstMock.
Variables rate slippageSimulation : N.
Import MicroDcaVault.

(** The steps of a cycle that succeeded against the mock router. *)
Lemma executeCycle_mock_inv (v v' : Vault) (L L' : Ledger)
    (sender now quoteAmount minOut beneficiary ret : N) (events : list Event) :
  executeCycle (R := MockRouter.router rate slippageSimulation) v L sender now
    quoteAmount minOut beneficiary = Ok (ret, v', L', events) ->
  let amountIn := swapped v L quoteAmount in
  let gross := amountIn * rate / 10 ^ 18 in
  let routerBaseOut := gross - gross * slippageSimulation / 10000 in
  exists (L1 L3 : Ledger) (fee : N),
    minOut <= routerBaseOut /\
    MockERC20.transferFrom (approved v L amountIn) (quoteToken v) (router v)
      (self v) (router v) amountIn = Ok L1 /\
    MockERC20.transfer L1 (baseToken v) (router v) (self v) routerBaseOut
      = Ok L3 /\
    deduct_fee v L3 routerBaseOut = Ok (fee, ret, L') /\
    v' = with_fill v now (totalFilledQuote v + amountIn) (totalFilledBase v + ret).
Proof.
  intros Hok.
  apply executeCycle_Ok_inv in Hok
    as (_ & _ & _ & _ & _ & _ & amounts & L3 & b & fee & Hswap & Hlast & _
        & Hfee & Hv & _).
  simpl in Hswap. unfold MockRouter.swap in Hswap. inv_Ok Hswap.
  injection Hswap as <- <-. simpl in Hlast. injection Hlast as <-.
  apply checked_mul_Ok in Ha as [-> _]. apply checked_mul_Ok in Ha0 as [-> _].
  apply checked_sub_Ok in Ha1 as [-> _]. cbv zeta.
  exists a2, a3, fee. repeat split; try assumption. lia.
Qed.

(** X17: the books of a cycle that succeeded against the mock router, for a
    vault whose tokens differ and whose router and owner are other accounts
    than the vault: the router's output is the amount swapped at its rate
    less its slippage; the vault's quote balance fell by the amount swapped
    and the router's rose by it; the vault's base balance rose by the amount
    returned; and the approval given to the router is used up, with nothing
    left on it. *)
Theorem executeCycle_mock_accounting (v v' : Vault) (L L' : Ledger)
    (sender now quoteAmount minOut beneficiary ret : N) (events : list Event) :
  executeCycle (R := MockRouter.router rate slippageSimulation) v L sender now
    quoteAmount minOut beneficiary = Ok (ret, v', L', events) ->
  baseToken v <> quoteToken v -> router v <> self v -> owner v <> self v ->
  let amountIn := swapped v L quoteAmount in
  let gross := amountIn * rate / 10 ^ 18 in
  let routerBaseOut := gross - gross * slippageSimulation / 10000 in
  ret = routerBaseOut - routerBaseOut * feeBps v / 10000 /\
  minOut <= routerBaseOut /\
  MockERC20.balanceOf L' (quoteToken v) (self v) + amountIn
    = MockERC20.balanceOf L (quoteToken v) (self v) /\
  MockERC20.balanceOf L' (quoteToken v) (router v)
    = MockERC20.balanceOf L (quoteToken v) (router v) + amountIn /\
  MockERC20.balanceOf L' (baseToken v) (self v)
    = MockERC20.balanceOf L (baseToken v) (self v) + ret /\
  MockERC20.allowance L' (quoteToken v) (self v) (router v) = 0.
Proof.
  intros Hok Htok Hrouter Hown.
  apply executeCycle_mock_inv in Hok
    as (L1 & L3 & fee & Hmin & Hpull & Hpay & Hfee & _).
  cbv zeta in *.
  set (amountIn := swapped v L quoteAmount) in *.
  set (routerBaseOut := amountIn * rate / 10 ^ 18
                        - amountIn * rate / 10 ^ 18 * slippageSimulation / 10000)
    in *.
  apply deduct_fee_Ok in Hfee as (-> & -> & Hle & Hmove).
  split; [reflexivity|]. split; [exact Hmin|].
  set (fee := routerBaseOut * feeBps v / 10000) in *.
  clearbody fee routerBaseOut amountIn.
  pose proof (transferFrom_balanceOf _ _ _ _ _ _ _ (quoteToken v) (self v) Hpull)
    as [_ Hq1].
  pose proof (transferFrom_balanceOf _ _ _ _ _ _ _ (quoteToken v) (router v) Hpull)
    as [_ Hq2].
  pose proof (transferFrom_balanceOf _ _ _ _ _ _ _ (baseToken v) (self v) Hpull)
    as [Hhas Hb1].
  pose proof (transfer_balanceOf _ _ _ _ _ _ (quoteToken v) (self v) Hpay)
    as [_ Hq3].
  pose proof (transfer_balanceOf _ _ _ _ _ _ (quoteToken v) (router v) Hpay)
    as [_ Hq4].
  pose proof (transfer_balanceOf _ _ _ _ _ _ (baseToken v) (self v) Hpay)
    as [_ Hb2].
  assert (Hallow : MockERC20.allowance L3 (quoteToken v) (self v) (router v) = 0).
  { rewrite (transfer_allowance _ _ _ _ _ _ (quoteToken v) (self v) (router v) Hpay).
    rewrite (allowance_transferFrom _ _ _ _ _ _ _ (quoteToken v) (self v)
               (router v) Hpull).
    rewrite decide_True by reflexivity.
    unfold approved. rewrite allowance_set_allowance.
    rewrite decide_True by reflexivity. lia. }
  unfold approved in *. rewrite !balanceOf_set_allowance in *.
  destruct Hmove as [[Hz ->] | [Hpos Ht]].
  - repeat match goal with
    | H : context [decide ?P] |- _ =>
        first [ rewrite (decide_True (P := P)) in H by congruence
              | rewrite (decide_False (P := P)) in H by congruence ]
    end.
    split; [clear - Hq1 Hq3 Hhas; lia|].
    split; [clear - Hq2 Hq4; lia|].
    split; [clear - Hb1 Hb2 Hz Hle; lia | exact Hallow].
  - pose proof (transfer_balanceOf _ _ _ _ _ _ (quoteToken v) (self v) Ht)
      as [_ Hf1].
    pose proof (transfer_balanceOf _ _ _ _ _ _ (quoteToken v) (router v) Ht)
      as [_ Hf2].
    pose proof (transfer_balanceOf _ _ _ _ _ _ (baseToken v) (self v) Ht)
      as [Hhas3 Hf3].
    rewrite (transfer_allowance _ _ _ _ _ _ (quoteToken v) (self v) (router v) Ht).
    repeat match goal with
    | H : context [decide ?P] |- _ =>
        first [ rewrite (decide_True (P := P)) in H by congruence
              | rewrite (decide_False (P := P)) in H by congruence ]
    end.
    split; [clear - Hq1 Hq3 Hf1 Hhas; lia|].
    split; [clear - Hq2 Hq4 Hf2; lia|].
    split; [clear - Hb1 Hb2 Hf3 Hhas3 Hle; lia | exact Hallow].
Qed.

End CycleAgainstMock.

Section CycleAtPar.
Import Scenario MicroDcaVault.

(** X18: at a rate of 1:1 without slippage a cycle costs the vault exactly
    the protocol fee: [totalAssets], which adds base to quote units one for
    one, is lower by the fee after the cycle and by nothing else. *)
Theorem executeCycle_at_par_costs_fee (v v' : Vault) (L L' : Ledger)
    (sender now quoteAmount minOut beneficiary ret total : N)
    (events : list Event) :
  executeCycle (R := MockRouter.router (10 ^ 18) 0) v L sender now quoteAmount
    minOut beneficiary = Ok (ret, v', L', events) ->
  baseToken v <> quoteToken v -> router v <> self v -> owner v <> self v ->
  totalAssets v L = Ok total ->
  let fee := swapped v L quoteAmount * feeBps v / 10000 in
  ret = swapped v L quoteAmount - fee /\
  fee <= total /\
  totalAssets v' L' = Ok (total - fee).
Proof.
  intros Hok Htok Hrouter Hown Htotal.
  apply executeCycle_mock_inv in Hok
    as (L1 & L3 & fee & _ & Hpull & Hpay & Hfee & ->).
  cbv zeta in *.
  rewrite N.div_mul in Hpay, Hfee by (vm_compute; discriminate).
  rewrite N.mul_0_r, N.Div0.div_0_l, N.sub_0_r in Hpay, Hfee.
  set (s := swapped v L quoteAmount) in *.
  apply deduct_fee_Ok in Hfee as (-> & -> & Hle & Hmove).
  set (fee := s * feeBps v / 10000) in *.
  pose proof (transferFrom_balanceOf _ _ _ _ _ _ _ (quoteToken v) (self v) Hpull)
    as [Hhas Hq1].
  pose proof (transferFrom_balanceOf _ _ _ _ _ _ _ (baseToken v) (self v) Hpull)
    as [_ Hb1].
  pose proof (transfer_balanceOf _ _ _ _ _ _ (quoteToken v) (self v) Hpay)
    as [_ Hq2].
  pose proof (transfer_balanceOf _ _ _ _ _ _ (baseToken v) (self v) Hpay)
    as [_ Hb2].
  unfold approved in *. rewrite !balanceOf_set_allowance in *.
  unfold totalAssets in *. simpl.
  apply checked_add_Ok in Htotal as [-> Hmax].
  split; [reflexivity|].
  clearbody fee s.
  destruct Hmove as [[Hz ->] | [Hpos Ht]].
  - repeat match goal with
    | H : context [decide ?P] |- _ =>
        first [ rewrite (decide_True (P := P)) in H by congruence
              | rewrite (decide_False (P := P)) in H by congruence ]
    end.
    split; [lia|]. rewrite checked_add_in_range by lia. f_equal. lia.
  - pose proof (transfer_balanceOf _ _ _ _ _ _ (quoteToken v) (self v) Ht)
      as [_ Hf1].
    pose proof (transfer_balanceOf _ _ _ _ _ _ (baseToken v) (self v) Ht)
      as [_ Hf3].
    repeat match goal with
    | H : context [decide ?P] |- _ =>
        first [ rewrite (decide_True (P := P)) in H by congruence
              | rewrite (decide_False (P := P)) in H by congruence ]
    end.
    split; [lia|]. rewrite checked_add_in_range by lia. f_equal. lia.
Qed.

Lemma executeCycle_mock_accounting_witness :
  exists L' : Ledger,
    MockERC20.balanceOf L' QUOTE VAULT + 50 * e18
      = MockERC20.balanceOf ledger0 QUOTE VAULT /\
    MockERC20.allowance L' QUOTE VAULT ROUTER = 0.
Proof.
  destruct (executeCycle (R := MockRouter.router e18 0) vault0 ledger0 USER
              (T0 + 60) (50 * e18) (50 * e18) USER)
    as [[[[ret v'] L'] events]|e] eqn:Hrun;
    [|vm_compute in Hrun; discriminate Hrun].
  destruct (executeCycle_mock_accounting e18 0 _ _ _ _ _ _ _ _ _ _ _ Hrun)
    as (_ & _ & Hq & _ & _ & Hallow);
    [vm_compute; discriminate | vm_compute; discriminate
    | vm_compute; discriminate |].
  exists L'. split; [exact Hq | exact Hallow].
Defined.

Lemma executeCycle_at_par_costs_fee_witness :
  exists (v' : Vault) (L' : Ledger),
    totalAssets v' L' = Ok (1000 * e18 - 50 * e18 * 10 / 10000).
Proof.
  destruct (executeCycle (R := MockRouter.router (10 ^ 18) 0) vault0 ledger0
              USER (T0 + 60) (50 * e18) (50 * e18) USER)
    as [[[[ret v'] L'] events]|e] eqn:Hrun;
    [|vm_compute in Hrun; discriminate Hrun].
  destruct (executeCycle_at_par_costs_fee _ _ _ _ _ _ _ _ _ _ (1000 * e18) _ Hrun)
    as (_ & _ & Htotal);
    [vm_compute; discriminate | vm_compute; discriminate
    | vm_compute; discriminate | vm_compute; reflexivity |].
  exists v', L'. exact Htotal.
Defined.

End CycleAtPar.

(** ** More on the relayer *)

Section RelayerMore.
Context {R : IRouter} {S : Relayer.TypedDataSigner}.
Import Relayer.

Lemma step_fee (r r' : State) :
  step r r' ->
  this r' = this r /\ relayer_owner r' = relayer_owner r /\
  (relayerFeeBps r' = relayerFeeBps r \/ relayerFeeBps r' <= MAX_RELAYER_FEE_BPS).
Proof.
  intros [r0 r1 world world' L L' sender now intent signature baseOut events Hm
         | r0 r1 sender bps events Hf].
  - apply executeMetaCycle_Ok_inv in Hm
      as (_ & signer & v & v' & L1 & b & fee & fill & _ & _ & Hb & _).
    unfold bump_nonce in Hb. inv_Ok Hb. injection Hb as <-. simpl. auto.
  - unfold setRelayerFee in Hf. inv_Ok Hf. injection Hf as <- _. simpl.
    split; [reflexivity|]. split; [reflexivity|]. right. lia.
Qed.

Lemma steps_fee (r r' : State) :
  rtc step r r' ->
  relayerFeeBps r <= MAX_RELAYER_FEE_BPS ->
  relayerFeeBps r' <= MAX_RELAYER_FEE_BPS /\
  this r' = this r /\ relayer_owner r' = relayer_owner r.
Proof.
  induction 1 as [r|r r1 r2 Hstep _ IH]; intros Hfee.
  - repeat split; [exact Hfee | reflexivity..].
  - apply step_fee in Hstep as (Ht & Ho & Hf).
    destruct IH as (Hfee' & Ht' & Ho'); [lia|].
    repeat split; [exact Hfee' | congruence..].
Qed.

(** X19: the relayer's fee never exceeds 1000 bps (10%): the constructor
    refuses a higher fee, [setRelayerFee] refuses one, and no other call
    writes it; the relayer keeps its owner, and a fresh relayer expects nonce
    0 from every signer. *)
Theorem relayerFeeBps_bounded (_this _initialFee _owner : N) (r0 r : State) :
  Relayer.constructor _this _initialFee _owner = Ok r0 ->
  rtc step r0 r ->
  relayerFeeBps r <= 1000 /\ this r = _this /\ relayer_owner r = _owner /\
  forall user : N, getNonce r0 user = 0.
Proof.
  intros Hc Hsteps. unfold Relayer.constructor in Hc. inv_Ok Hc.
  injection Hc as <-.
  apply steps_fee in Hsteps as (Hfee & Ht & Ho); [|simpl; lia].
  simpl in Ht, Ho. unfold MAX_RELAYER_FEE_BPS in Hfee.
  split; [exact Hfee|]. split; [exact Ht|]. split; [exact Ho|].
  intros user. unfold getNonce; simpl. rewrite lookup_empty. reflexivity.
Qed.

(** X20: [verifySignature] against [executeMetaCycle], at the same state and
    time.  A verdict of valid means the deadline has not passed, the signer
    is not the zero address and the nonce is the signer's next one.  A
    verdict of invalid for a non-zero signer means [executeMetaCycle] fails
    with [InvalidParams].  After the deadline the helper answers
    [(address(0), false)] where [executeMetaCycle] reverts with
    [MetaTxExpired]; and a signature that does not recover makes both
    revert alike. *)
Theorem verifySignature_predicts (r : State) (world : gmap N Vault) (L : Ledger)
    (sender now : N) (intent : ExecuteCycle) (signature : list N) :
  (forall signer : N,
     verifySignature r now intent signature = Ok (signer, true) ->
     now <= deadline intent /\ signer <> 0 /\
     recover (this r) intent signature = Ok signer /\
     nonce intent = getNonce r signer)
  /\
  (forall signer : N,
     verifySignature r now intent signature = Ok (signer, false) ->
     signer <> 0 ->
     executeMetaCycle r world L sender now intent signature = Err InvalidParams)
  /\
  (now > deadline intent ->
   verifySignature r now intent signature = Ok (0, false) /\
   executeMetaCycle r world L sender now intent signature = Err MetaTxExpired)
  /\
  (forall e : Error,
     now <= deadline intent ->
     recover (this r) intent signature = Err e ->
     verifySignature r now intent signature = Err e /\
     executeMetaCycle r world L sender now intent signature = Err e).
Proof.
  unfold verifySignature, executeMetaCycle.
  split; [|split; [|split]].
  - intros signer Hv.
    destruct (decide (now > deadline intent)); [discriminate|].
    destruct (recover (this r) intent signature) as [s|e]; [|discriminate].
    simpl in Hv. injection Hv as -> Hvalid.
    apply andb_true_iff in Hvalid as [Hn Hz].
    apply bool_decide_eq_true in Hn. apply bool_decide_eq_true in Hz.
    repeat split; first [assumption | lia].
  - intros signer Hv Hnz.
    destruct (decide (now > deadline intent)) as [|Hlive].
    { injection Hv as <-. contradiction. }
    destruct (recover (this r) intent signature) as [s|e]; [|discriminate].
    simpl in *. injection Hv as -> Hvalid.
    apply andb_false_iff in Hvalid as [Hn | Hz].
    + apply bool_decide_eq_false in Hn. rewrite decide_True by exact Hn.
      reflexivity.
    + apply bool_decide_eq_false in Hz. contradiction.
  - intros Hexp. rewrite !decide_True by exact Hexp. split; reflexivity.
  - intros e Hlive Hrec. rewrite !decide_False by lia. rewrite Hrec.
    split; reflexivity.
Qed.

(** X21: the vault sees the relayer as its caller, and the signer carries no
    authority over it: a meta-transaction that succeeded ran on a vault that
    was not paused and had no keeper or had the relayer itself as keeper,
    whoever signed; and when the checks of the relayer pass, what the vault
    raises for the relayer as caller is raised unchanged. *)
Theorem executeMetaCycle_calls_as_relayer (r : State) (world : gmap N Vault)
    (L : Ledger) (sender now : N) (intent : ExecuteCycle) (signature : list N) :
  (forall (baseOut : N) (r' : State) (world' : gmap N Vault) (L' : Ledger)
          (events : list Event),
     executeMetaCycle r world L sender now intent signature
       = Ok (baseOut, r', world', L', events) ->
     exists v : Vault,
       world !! vault intent = Some v /\ paused v = false /\
       (keeper v = 0 \/ keeper v = this r))
  /\
  (forall (signer : N) (v : Vault) (e : Error),
     now <= deadline intent ->
     recover (this r) intent signature = Ok signer ->
     nonce intent = getNonce r signer ->
     getNonce r signer + 1 <= MAX_UINT256 ->
     world !! vault intent = Some v ->
     MicroDcaVault.executeCycle v L (this r) now (quoteAmount intent)
       (minOut intent) (beneficiary intent) = Err e ->
     executeMetaCycle r world L sender now intent signature = Err e).
Proof.
  split.
  - intros baseOut r' world' L' events Hm.
    apply executeMetaCycle_Ok_inv in Hm
      as (_ & signer & v & v' & L1 & b & fee & fill & _ & _ & _ & Hv & Hcyc & _).
    apply executeCycle_Ok_inv in Hcyc as (Hp & _ & Hauth & _).
    exists v. split; [exact Hv|]. split; [exact Hp|].
    destruct Hauth as [Hk | Hk]; [left; exact Hk | right; congruence].
  - intros signer v e Hlive Hrec Hnonce Hroom Hv Hcyc. unfold executeMetaCycle.
    rewrite decide_False by lia. rewrite Hrec. simpl.
    rewrite decide_False by (intros Hne; apply Hne; exact Hnonce).
    unfold bump_nonce. rewrite checked_add_in_range by exact Hroom. simpl.
    rewrite Hv, Hcyc. reflexivity.
Qed.

(** X22: what a meta-transaction that succeeded changed and charged.  The
    signer is the one the signature recovers to; the target is a vault of
    the world, on which the cycle ran with the relayer as caller; the world
    afterwards holds the vault as the cycle left it and differs nowhere
    else; the relayer keeps its fee rate, owner and address; the events are
    those of the cycle followed by one [MetaTxExecuted] for that signer,
    whose [baseOut] and [relayerFee] add up to what the cycle returned; the
    fee is the floor of that amount times the rate over 10000, at most a
    tenth of it while the rate is within its bound of 1000 bps; and the
    ledgers are those the cycle left, after the pull of a positive fee from
    the vault to the caller of the relayer. *)
Theorem executeMetaCycle_frame (r r' : State) (world world' : gmap N Vault)
    (L L' : Ledger) (sender now : N) (intent : ExecuteCycle)
    (signature : list N) (baseOut : N) (events : list Event) :
  executeMetaCycle r world L sender now intent signature
    = Ok (baseOut, r', world', L', events) ->
  (forall a : N, a <> vault intent -> world' !! a = world !! a) /\
  relayerFeeBps r' = relayerFeeBps r /\ relayer_owner r' = relayer_owner r /\
  this r' = this r /\
  exists (signer : N) (v v' : Vault) (L1 : Ledger) (baseReceived relayerFee : N)
         (fill : list Event),
    recover (this r) intent signature = Ok signer /\
    world !! vault intent = Some v /\
    MicroDcaVault.executeCycle v L (this r) now (quoteAmount intent)
      (minOut intent) (beneficiary intent) = Ok (baseReceived, v', L1, fill) /\
    world' !! vault intent = Some v' /\
    events = fill ++ [MetaTxExecuted signer (vault intent) (quoteAmount intent)
                        baseOut relayerFee] /\
    relayerFee = baseReceived * relayerFeeBps r / 10000 /\
    baseOut + relayerFee = baseReceived /\
    (relayerFeeBps r <= 1000 -> relayerFee * 10 <= baseReceived) /\
    (relayerFee = 0 /\ L' = L1 \/
     0 < relayerFee /\
     MockERC20.transferFrom L1 (baseToken v) (this r) (vault intent) sender
       relayerFee = Ok L').
Proof.
  intros Hm.
  apply executeMetaCycle_Ok_inv in Hm
    as (_ & signer & v & v' & L1 & b & fee & fill & Hrec & _ & Hb & Hv & Hcyc
        & Htake & -> & ->).
  assert (Hsame : relayerFeeBps r' = relayerFeeBps r /\
                  relayer_owner r' = relayer_owner r /\ this r' = this r).
  { unfold bump_nonce in Hb. inv_Ok Hb. injection Hb as <-. simpl. auto. }
  destruct Hsame as (Hbps & Hown & Hthis).
  split; [intros a Hne; by rewrite lookup_insert_ne|].
  split; [exact Hbps|]. split; [exact Hown|]. split; [exact Hthis|].
  apply take_relayer_fee_Ok in Htake as (Hfee & Hnet & Hle & Hpull).
  rewrite Hbps in Hfee. rewrite Hthis in Hpull.
  assert (Htoken : baseToken v' = baseToken v).
  { apply executeCycle_Ok_inv in Hcyc
      as (_ & _ & _ & _ & _ & _ & amounts & L3 & b0 & fee0 & _ & _ & _ & _ & ->
          & _).
    reflexivity. }
  rewrite Htoken in Hpull.
  exists signer, v, v', L1, b, fee, fill.
  split; [exact Hrec|]. split; [exact Hv|]. split; [exact Hcyc|].
  split; [apply lookup_insert_eq|].
  split; [reflexivity|]. split; [exact Hfee|]. split; [lia|].
  split; [|exact Hpull].
  intros Hrate. subst fee.
  pose proof (N.Div0.mul_div_le (b * relayerFeeBps r) 10000) as Hd. nia.
Qed.

End RelayerMore.

Section RelayerMoreExamples.
Import Relayer.

Lemma relayerFeeBps_bounded_witness :
  setRelayerFee Scenario.relayer0 Scenario.OWNER 1000
    = Ok (Scenario.relayer_max, [RelayerFeeUpdated 25 1000]) /\
  setRelayerFee Scenario.relayer_max Scenario.OWNER 1001 = Err InvalidParams /\
  setRelayerFee Scenario.relayer_max Scenario.OWNER 0
    = Ok (Scenario.free_relayer, [RelayerFeeUpdated 1000 0]) /\
  rtc (step (R := Scenario.mock) (S := Scenario.tagged)) Scenario.relayer0
    Scenario.free_relayer_used /\
  relayerFeeBps Scenario.free_relayer_used <= 1000 /\
  relayer_owner Scenario.free_relayer_used = Scenario.OWNER.
Proof.
  assert (Hraise : setRelayerFee Scenario.relayer0 Scenario.OWNER 1000
                   = Ok (Scenario.relayer_max, [RelayerFeeUpdated 25 1000]))
    by reflexivity.
  assert (Hlower : setRelayerFee Scenario.relayer_max Scenario.OWNER 0
                   = Ok (Scenario.free_relayer, [RelayerFeeUpdated 1000 0]))
    by reflexivity.
  destruct (executeMetaCycle (R := Scenario.mock) (S := Scenario.tagged)
              Scenario.free_relayer Scenario.world0 Scenario.ledger0
              Scenario.GASPAYER (Scenario.T0 + 60) Scenario.intent0
              [Scenario.USER])
    as [[[[[baseOut r'] world'] L'] events]|e] eqn:Hrun;
    [|vm_compute in Hrun; discriminate Hrun].
  assert (Hused : r' = Scenario.free_relayer_used)
    by (vm_compute in Hrun; injection Hrun as _ <- _ _ _; reflexivity).
  subst r'.
  assert (Hsteps : rtc (step (R := Scenario.mock) (S := Scenario.tagged))
                     Scenario.relayer0 Scenario.free_relayer_used).
  { eapply rtc_l; [exact (step_setRelayerFee _ _ _ _ _ Hraise)|].
    eapply rtc_l; [exact (step_setRelayerFee _ _ _ _ _ Hlower)|].
    eapply rtc_l; [exact (step_executeMetaCycle _ _ _ _ _ _ _ _ _ _ _ _ Hrun)|].
    apply rtc_refl. }
  destruct (relayerFeeBps_bounded (R := Scenario.mock) (S := Scenario.tagged)
              Scenario.RELAYER 25 Scenario.OWNER Scenario.relayer0
              Scenario.free_relayer_used eq_refl Hsteps)
    as (Hfee & _ & Howner & _).
  split; [exact Hraise|]. split; [reflexivity|]. split; [exact Hlower|].
  split; [exact Hsteps|]. split; [exact Hfee | exact Howner].
Defined.

Lemma verifySignature_predicts_witness :
  executeMetaCycle (R := Scenario.mock) (S := Scenario.tagged)
    Scenario.free_relayer_used Scenario.world0 Scenario.ledger0
    Scenario.GASPAYER (Scenario.T0 + 61) Scenario.intent0 [Scenario.USER]
  = Err InvalidParams.
Proof.
  destruct (verifySignature_predicts (R := Scenario.mock) (S := Scenario.tagged)
              Scenario.free_relayer_used Scenario.world0 Scenario.ledger0
              Scenario.GASPAYER (Scenario.T0 + 61) Scenario.intent0
              [Scenario.USER]) as (_ & Hinvalid & _).
  apply (Hinvalid Scenario.USER); [vm_compute; reflexivity | discriminate].
Defined.

Lemma executeMetaCycle_calls_as_relayer_witness :
  executeMetaCycle (R := Scenario.mock) (S := Scenario.tagged)
    Scenario.free_relayer (<[Scenario.VAULT := Scenario.keeper_vault]> ∅)
    Scenario.ledger0 Scenario.GASPAYER (Scenario.T0 + 60) Scenario.intent0
    [Scenario.KEEPER] = Err NotKeeper.
Proof.
  destruct (executeMetaCycle_calls_as_relayer (R := Scenario.mock)
              (S := Scenario.tagged) Scenario.free_relayer
              (<[Scenario.VAULT := Scenario.keeper_vault]> ∅) Scenario.ledger0
              Scenario.GASPAYER (Scenario.T0 + 60) Scenario.intent0
              [Scenario.KEEPER]) as [_ Hraise].
  apply (Hraise Scenario.KEEPER Scenario.keeper_vault NotKeeper);
    vm_compute; first [reflexivity | discriminate].
Defined.

Lemma executeMetaCycle_frame_witness :
  exists (baseOut relayerFee : N) (r' : State) (world' : gmap N Vault)
         (L' : Ledger) (fill : list Event),
    executeMetaCycle (R := Scenario.mock) (S := Scenario.tagged)
      Scenario.relayer0 Scenario.world0 Scenario.ledger_approved
      Scenario.GASPAYER (Scenario.T0 + 60) Scenario.intent0 [Scenario.USER]
    = Ok (baseOut, r', world', L',
          fill ++ [MetaTxExecuted Scenario.USER Scenario.VAULT
                     (50 * Scenario.e18) baseOut relayerFee]) /\
    relayerFeeBps r' = 25 /\
    relayerFee = 4995 * Scenario.e18 / 100 * 25 / 10000 /\
    baseOut + relayerFee = 4995 * Scenario.e18 / 100.
Proof.
  destruct (executeMetaCycle (R := Scenario.mock) (S := Scenario.tagged)
              Scenario.relayer0 Scenario.world0 Scenario.ledger_approved
              Scenario.GASPAYER (Scenario.T0 + 60) Scenario.intent0
              [Scenario.USER])
    as [[[[[baseOut r'] world'] L'] events]|e] eqn:Hrun;
    [|vm_compute in Hrun; discriminate Hrun].
  destruct (executeMetaCycle_frame _ _ _ _ _ _ _ _ _ _ _ _ Hrun)
    as (_ & Hbps & _ & _ & signer & v & v' & L1 & baseReceived & relayerFee
        & fill & Hrec & Hv & Hcyc & _ & Hevents & Hfee & Hsum & _).
  injection Hrec as <-.
  vm_compute in Hv. injection Hv as <-.
  assert (Hreceived : baseReceived = 4995 * Scenario.e18 / 100)
    by (vm_compute in Hcyc; injection Hcyc as <- _ _ _; reflexivity).
  rewrite Hreceived in Hfee, Hsum.
  exists baseOut, relayerFee, r', world', L', fill.
  split; [rewrite Hevents; reflexivity|].
  split; [exact Hbps|]. split; [exact Hfee | exact Hsum].
Defined.

End RelayerMoreExamples.

(** ** Edges of the cycle engine and of the token *)

Section Edges.
Context {R : IRouter}.
Import MicroDcaVault.

(** X23: a vault fresh from [createVault] is owned by the caller, uses the
    factory's router, is registered, unpaused and without keeper, has empty
    counters, and has its interval running from the block of its creation:
    no cycle can run on it before [intervalSeconds] have passed, whoever
    calls. *)
Theorem createVault_then_wait (f f' : Factory) (world world' : gmap N Vault)
    (sender now new base quote _intervalSeconds _maxSlippageBps
     _perCycleQuoteCap _feeBps _keeper vault : N) (events : list Event) :
  VaultFactory.createVault f world sender now new base quote _intervalSeconds
    _maxSlippageBps _perCycleQuoteCap _feeBps _keeper
    = Ok (vault, f', world', events) ->
  exists v : Vault,
    world' !! vault = Some v /\ vault = new /\ self v = new /\
    owner v = sender /\ router v = factory_router f /\
    baseToken v = base /\ quoteToken v = quote /\ base <> quote /\
    base <> 0 /\ quote <> 0 /\ _intervalSeconds <> 0 /\
    lastExec v = now /\ totalFilledQuote v = 0 /\ totalFilledBase v = 0 /\
    VaultFactory.is_vault f' vault = true /\
    events = [VaultCreated new base quote sender] /\
    (forall a : N, a <> new -> world' !! a = world !! a) /\
    forall (L : Ledger) (caller now2 quoteAmount minOut beneficiary : N),
      now2 < now + _intervalSeconds ->
      now + _intervalSeconds <= MAX_UINT256 ->
      executeCycle v L caller now2 quoteAmount minOut beneficiary
        = Err IntervalNotElapsed.
Proof.
  unfold VaultFactory.createVault. intros Hc. inv_Ok Hc.
  unfold MicroDcaVault.constructor in Ha. inv_Ok Ha.
  injection Ha as <-. injection Hc as <- <- <- <-.
  eexists. split; [apply lookup_insert_eq|].
  repeat (split; [first [reflexivity | tauto]|]).
  split; [unfold VaultFactory.is_vault; simpl; by rewrite lookup_insert_eq|].
  split; [reflexivity|].
  split; [intros a Hne; by rewrite lookup_insert_ne|].
  intros L caller now2 quoteAmount minOut beneficiary Hearly Hsum.
  apply executeCycle_before_interval; simpl; auto.
Qed.

(** X24: an interval so long that [lastExec + intervalSeconds] does not fit
    a uint256 stops the vault: [nextExecTime] and every cycle of a caller the
    vault admits revert with an arithmetic panic, at any time, and no cycle
    succeeds until the owner sets another interval. *)
Theorem executeCycle_interval_overflow (v : Vault) (L : Ledger)
    (sender now quoteAmount minOut beneficiary : N) :
  MAX_UINT256 < lastExec v + intervalSeconds v ->
  nextExecTime v = Err (Panic 17) /\
  is_Err (executeCycle v L sender now quoteAmount minOut beneficiary) /\
  (paused v = false -> entered v = false ->
   (keeper v = 0 \/ sender = keeper v) ->
   executeCycle v L sender now quoteAmount minOut beneficiary = Err (Panic 17)).
Proof.
  intros Hover.
  assert (Hadd : checked_add (lastExec v) (intervalSeconds v) = Err (Panic 17))
    by (apply checked_add_overflow; lia).
  split; [exact Hadd|]. split.
  - unfold executeCycle, is_Err.
    destruct (paused v); [eauto|]. destruct (entered v); [eauto|].
    destruct (decide (keeper v <> 0 /\ sender <> keeper v)); [eauto|].
    rewrite Hadd. simpl. eauto.
  - intros Hp He Hauth. unfold executeCycle. rewrite Hp, He.
    rewrite (decide_False (P := _ /\ _)) by tauto.
    rewrite Hadd. reflexivity.
Qed.

(** X25: with a fee rate of 200% or more ([setConfig] accepts it) a cycle can
    only succeed on a router output of zero: the fee on any positive output
    exceeds the output, and the subtraction reverts. *)
Theorem executeCycle_fee_rate_above_par (v v' : Vault) (L L' : Ledger)
    (sender now quoteAmount minOut beneficiary ret : N) (events : list Event) :
  20000 <= feeBps v ->
  executeCycle v L sender now quoteAmount minOut beneficiary
    = Ok (ret, v', L', events) ->
  ret = 0 /\ minOut = 0 /\
  exists (amounts : list N) (L3 : Ledger),
    swapExactTokensForTokens (router v) (self v) now (swapped v L quoteAmount)
      minOut [quoteToken v; baseToken v] (self v) (now + 300)
      (approved v L (swapped v L quoteAmount)) = Ok (amounts, L3) /\
    last amounts = Some 0.
Proof.
  intros Hrate Hok.
  apply executeCycle_Ok_inv in Hok
    as (_ & _ & _ & _ & _ & _ & amounts & L3 & b & fee & Hswap & Hlast & Hmin
        & Hfee & _ & _).
  apply deduct_fee_Ok in Hfee as (-> & -> & Hle & _).
  assert (Hb : b = 0).
  { assert (Hlow : b * 2 <= b * feeBps v / 10000).
    { apply N.div_le_lower_bound; [lia | nia]. }
    lia. }
  subst b. split; [reflexivity|]. split; [lia|].
  exists amounts, L3. split; assumption.
Qed.

End Edges.

Section TokenAllowance.
Import MockERC20.

(** X26: an approval is a limit, not a running total: [approve] replaces
    whatever allowance was there; a [transferFrom] by the spender succeeds
    only within the allowance and the owner's balance, and leaves the
    allowance smaller by the amount moved and every other allowance as it
    was. *)
Theorem approve_limits_transferFrom (L L1 L2 : Ledger)
    (token owner spender to approved amount : N) :
  approve L token owner spender approved = Ok L1 ->
  transferFrom L1 token spender owner to amount = Ok L2 ->
  allowance L1 token owner spender = approved /\
  amount <= approved /\ amount <= balanceOf L token owner /\
  allowance L2 token owner spender = approved - amount /\
  forall t o s : N,
    (t, o, s) <> (token, owner, spender) ->
    allowance L2 t o s = allowance L t o s.
Proof.
  unfold approve. intros Ha Ht. injection Ha as <-.
  assert (Hset : allowance (set_allowance L token owner spender approved)
                   token owner spender = approved).
  { rewrite allowance_set_allowance. rewrite decide_True by reflexivity.
    reflexivity. }
  split; [exact Hset|].
  pose proof (transferFrom_allowance _ _ _ _ _ _ _ Ht) as Hle.
  rewrite Hset in Hle. split; [exact Hle|].
  pose proof (transferFrom_balanceOf _ _ _ _ _ _ _ token owner Ht) as [Hbal _].
  rewrite balanceOf_set_allowance in Hbal. split; [exact Hbal|].
  split.
  - rewrite (allowance_transferFrom _ _ _ _ _ _ _ token owner spender Ht).
    rewrite decide_True by reflexivity. rewrite Hset. reflexivity.
  - intros t o s Hne.
    rewrite (allowance_transferFrom _ _ _ _ _ _ _ t o s Ht).
    rewrite decide_False by congruence.
    rewrite allowance_set_allowance. rewrite decide_False by congruence.
    reflexivity.
Qed.

End TokenAllowance.

Section EdgesExamples.
Import Scenario MicroDcaVault.

Lemma createVault_then_wait_witness :
  exists v : Vault,
    owner v = OWNER /\
    executeCycle (R := mock) v ledger0 USER T0 (50 * e18) (50 * e18) USER
      = Err IntervalNotElapsed.
Proof.
  destruct (VaultFactory.createVault factory0 ∅ OWNER T0 VAULT BASE QUOTE 60 50
              (100 * e18) 10 KEEPER)
    as [[[[vault f'] world'] events]|e] eqn:Hc;
    [|vm_compute in Hc; discriminate Hc].
  destruct (createVault_then_wait (R := mock) _ _ _ _ _ _ _ _ _ _ _ _ _ _ _ _ Hc)
    as (v & _ & _ & _ & Hown & Hrest).
  exists v. split; [exact Hown|].
  apply Hrest; vm_compute; first [reflexivity | discriminate].
Defined.

Lemma executeCycle_interval_overflow_witness :
  executeCycle (R := mock) stuck_vault ledger0 USER MAX_UINT256 (50 * e18)
    (50 * e18) USER = Err (Panic 17).
Proof.
  destruct (executeCycle_interval_overflow (R := mock) stuck_vault ledger0 USER
              MAX_UINT256 (50 * e18) (50 * e18) USER) as (_ & _ & Hpanic);
    [vm_compute; reflexivity|].
  apply Hpanic; first [reflexivity | left; reflexivity].
Defined.

Lemma executeCycle_fee_rate_above_par_witness :
  exists (v' : Vault) (L' : Ledger) (events : list Event),
    executeCycle (R := MockRouter.router 0 0) greedy_vault ledger0 USER
      (T0 + 60) (50 * e18) 0 USER = Ok (0, v', L', events).
Proof.
  destruct (executeCycle (R := MockRouter.router 0 0) greedy_vault ledger0 USER
              (T0 + 60) (50 * e18) 0 USER)
    as [[[[ret v'] L'] events]|e] eqn:Hrun;
    [|vm_compute in Hrun; discriminate Hrun].
  assert (Hrate : 20000 <= feeBps greedy_vault) by (vm_compute; discriminate).
  destruct (executeCycle_fee_rate_above_par (R := MockRouter.router 0 0)
              _ _ _ _ _ _ _ _ _ _ _ Hrate Hrun) as (-> & _).
  exists v', L', events. reflexivity.
Defined.

Lemma approve_limits_transferFrom_witness :
  exists L1 L2 : Ledger,
    MockERC20.approve ledger0 QUOTE VAULT ROUTER 10 = Ok L1 /\
    MockERC20.transferFrom L1 QUOTE ROUTER VAULT ROUTER 4 = Ok L2 /\
    MockERC20.allowance L2 QUOTE VAULT ROUTER = 10 - 4.
Proof.
  destruct (MockERC20.approve ledger0 QUOTE VAULT ROUTER 10)
    as [L1|e] eqn:Ha; [|discriminate Ha].
  destruct (MockERC20.transferFrom L1 QUOTE ROUTER VAULT ROUTER 4)
    as [L2|e] eqn:Ht.
  - exists L1, L2. split; [reflexivity|]. split; [exact Ht|].
    destruct (approve_limits_transferFrom _ _ _ _ _ _ _ _ _ Ha Ht)
      as (_ & _ & _ & Hleft & _).
    exact Hleft.
  - injection Ha as <-. vm_compute in Ht. discriminate Ht.
Defined.

End EdgesExamples.
